(** * turtle-express: the request pipeline of [createHandler]

    A shallow embedding of
    [packages/turtle-express/src/core/create-handler.ts] and the statements
    of its specification that concern the five-stage pipeline
    (guard, request validation, resolver, resolver validation, send).

    Conventions of the embedding.
    - JavaScript values of type [any] are terms of [JsVal].
    - An [await]ed call that may throw or reject returns [JsError + A].
    - The body of the [.then] callback is written in a small monad [M]
      threading the scratch context object and a ghost trace of the calls
      made to the collaborators (guard, zod, resolver, express), with
      ECMAScript-like completions (normal, [return], [throw]).
    - [handlerFuncSteps.context] is an object of an imported module: every
      invocation of every handler destructures a reference to that one
      object, so the handler is a function from the store it finds to the
      store it leaves. *)

From Stdlib Require Import ZArith String List Lia.
From stdpp Require Import base option strings gmap.

Import ListNotations.
Local Open Scope string_scope.

(** ** JavaScript values *)

#[warnings="-register-all"]
Inductive JsVal : Type :=
| JUndefined
| JNull
| JBool (b : bool)
| JNum (n : Z)
| JStr (s : string)
| JArr (items : list JsVal)
| JObj (fields : list (string * JsVal)).

(** The result of [parseInt]: an integer or [NaN]. *)
Inductive JsNumber : Type :=
| NaN
| Int (z : Z).

Inductive JsError : Type :=
| TypeError (message : string)
| Error (message : string)
| Thrown (reason : JsVal).

(** [v === b] for a boolean literal [b]. *)
Definition strictEqBool (v : JsVal) (b : bool) : bool :=
  match v with
  | JBool b' => Bool.eqb b' b
  | _ => false
  end.

(** [n < k] and [n >= k]; every comparison with [NaN] is false. *)
Definition num_lt (n : JsNumber) (k : Z) : bool :=
  match n with
  | Int z => (z <? k)%Z
  | NaN => false
  end.

Definition num_ge (n : JsNumber) (k : Z) : bool :=
  match n with
  | Int z => (k <=? z)%Z
  | NaN => false
  end.

(** ** The collaborators: zod and express *)

Module Zod.

(** A [ZodError]; [format] is the result of its [format()] method. *)
Record ZodError : Type := { format : JsVal }.

Inductive SafeParseReturnType : Type :=
| SafeParseSuccess (data : JsVal)
| SafeParseError (error : ZodError).

(** A schema is used through [safeParse] only. *)
Record ZodType : Type :=
  { safeParse : JsVal -> JsError + SafeParseReturnType }.

End Zod.

Module Express.

Record Request : Type :=
  { params : JsVal;
    query : JsVal;
    body : JsVal }.

(** The response object; the handler uses [status] and [send], recorded
    in the trace. *)
Inductive Response : Type := res_object.

End Express.

(** [ResponseShape]: an object keyed by HTTP status codes (the type admits
    the numeric literals 100..511 only, so a key is its own [parseInt]).
    A resolver's result lists its entries in the order of [Object.keys]. *)
Definition ResponseShape (A : Type) : Type := list (Z * A).

(** [parseInt(Object.keys(result)[0])]: [NaN] when there is no key. *)
Definition firstKey {A} (result : ResponseShape A) : JsNumber :=
  match result with
  | [] => NaN
  | (k, _) :: _ => Int k
  end.

Fixpoint assoc {A} (k : Z) (result : ResponseShape A) : option A :=
  match result with
  | [] => None
  | (k', a) :: rest => if (k =? k')%Z then Some a else assoc k rest
  end.

(** [result[key]]: [undefined] for a missing key and for [NaN]. *)
Definition getEntry (result : ResponseShape JsVal) (key : JsNumber) : JsVal :=
  match key with
  | NaN => JUndefined
  | Int k => default JUndefined (assoc k result)
  end.

(** [response?.[key]] on the optional schema map of the route. *)
Definition getSchema (response : option (gmap Z Zod.ZodType)) (key : JsNumber)
  : option Zod.ZodType :=
  match response, key with
  | Some m, Int k => m !! k
  | _, _ => None
  end.

(** ** The step table and the scratch context *)

Module handlerFuncSteps.

(** The object held in a validation slot of the context, read through its
    properties [success], [data] and [error]. *)
Module Validation.
Record t : Type :=
  { success : JsVal;
    data : JsVal;
    error : option Zod.ZodError }.

(** The object zod returns from [safeParse]. *)
Definition of_zod (r : Zod.SafeParseReturnType) : t :=
  match r with
  | Zod.SafeParseSuccess d =>
      {| success := JBool true; data := d; error := None |}
  | Zod.SafeParseError e =>
      {| success := JBool false; data := JUndefined; error := Some e |}
  end.
End Validation.

Module GuardResult.
Record t : Type := { pass : bool; response : JsVal }.
End GuardResult.

Module RequestValidation.
Record Response : Type :=
  { params : option Validation.t;
    query : option Validation.t;
    body : option Validation.t }.
Record t : Type := { pass : JsVal; response : Response }.
End RequestValidation.

Module ResponseInit.
Record t : Type :=
  { statusCode : JsNumber;
    success : JsVal;
    message : string;
    data : JsVal;
    error : JsVal }.
End ResponseInit.

(** Modelled from the spec: the type of [handlerFuncSteps.context]
    (handler-function-steps.ts is not part of the sources).  The fields
    are the ones create-handler.ts reads and writes; a field the code
    dereferences without [?.] holds an object. *)
Record Context : Type :=
  { guardResult : option GuardResult.t;
    paramsValidation : Validation.t;
    queryValidation : Validation.t;
    bodyValidation : Validation.t;
    requestValidation : RequestValidation.t;
    resolverResult : ResponseShape JsVal;
    resolverValidation : option Validation.t;
    responseInit : ResponseInit.t }.

Record Step (On : Type) : Type := { name : string; on : On }.
Arguments name {On} _.
Arguments on {On} _.

Record GuardOn : Type :=
  { GUARD_PASSED : string; GUARD_FAILED : string; GUARD_SKIPPED : string }.
Record RequestValidationOn : Type :=
  { REQUEST_VALIDATION_SKIPPED : string;
    REQUEST_VALIDATION_PASSED : string;
    REQUEST_VALIDATION_FAILED : string }.
Record ResolverOn : Type := { RESOLVER_DONE : string }.
Record ResolverValidationOn : Type := { RESOLVER_VALIDATION_DONE : string }.

Record Steps : Type :=
  { S001 : Step GuardOn;
    S002 : Step RequestValidationOn;
    S003 : Step ResolverOn;
    S004 : Step ResolverValidationOn;
    S005 : Step unit }.

(** Modelled from the spec: the step table [handlerFuncSteps.steps]
    (handler-function-steps.ts is not part of the sources), with the five
    stage names and the transitions of section 4.1. *)
Definition steps : Steps :=
  {| S001 := {| name := "guard";
                on := {| GUARD_PASSED := "request_validation";
                         GUARD_FAILED := "send_response";
                         GUARD_SKIPPED := "request_validation" |} |};
     S002 := {| name := "request_validation";
                on := {| REQUEST_VALIDATION_SKIPPED := "resolver";
                         REQUEST_VALIDATION_PASSED := "resolver";
                         REQUEST_VALIDATION_FAILED := "send_response" |} |};
     S003 := {| name := "resolver";
                on := {| RESOLVER_DONE := "resolver_validation" |} |};
     S004 := {| name := "resolver_validation";
                on := {| RESOLVER_VALIDATION_DONE := "send_response" |} |};
     S005 := {| name := "send_response"; on := tt |} |}.

End handlerFuncSteps.

Import handlerFuncSteps.

(** Assignments to the properties of the context object. *)
Definition set_guardResult (v : option GuardResult.t) (c : Context) : Context :=
  {| guardResult := v;
     paramsValidation := paramsValidation c;
     queryValidation := queryValidation c;
     bodyValidation := bodyValidation c;
     requestValidation := requestValidation c;
     resolverResult := resolverResult c;
     resolverValidation := resolverValidation c;
     responseInit := responseInit c |}.

Definition set_paramsValidation (v : Validation.t) (c : Context) : Context :=
  {| guardResult := guardResult c;
     paramsValidation := v;
     queryValidation := queryValidation c;
     bodyValidation := bodyValidation c;
     requestValidation := requestValidation c;
     resolverResult := resolverResult c;
     resolverValidation := resolverValidation c;
     responseInit := responseInit c |}.

Definition set_queryValidation (v : Validation.t) (c : Context) : Context :=
  {| guardResult := guardResult c;
     paramsValidation := paramsValidation c;
     queryValidation := v;
     bodyValidation := bodyValidation c;
     requestValidation := requestValidation c;
     resolverResult := resolverResult c;
     resolverValidation := resolverValidation c;
     responseInit := responseInit c |}.

Definition set_bodyValidation (v : Validation.t) (c : Context) : Context :=
  {| guardResult := guardResult c;
     paramsValidation := paramsValidation c;
     queryValidation := queryValidation c;
     bodyValidation := v;
     requestValidation := requestValidation c;
     resolverResult := resolverResult c;
     resolverValidation := resolverValidation c;
     responseInit := responseInit c |}.

Definition set_requestValidation (v : RequestValidation.t) (c : Context) : Context :=
  {| guardResult := guardResult c;
     paramsValidation := paramsValidation c;
     queryValidation := queryValidation c;
     bodyValidation := bodyValidation c;
     requestValidation := v;
     resolverResult := resolverResult c;
     resolverValidation := resolverValidation c;
     responseInit := responseInit c |}.

Definition set_resolverResult (v : ResponseShape JsVal) (c : Context) : Context :=
  {| guardResult := guardResult c;
     paramsValidation := paramsValidation c;
     queryValidation := queryValidation c;
     bodyValidation := bodyValidation c;
     requestValidation := requestValidation c;
     resolverResult := v;
     resolverValidation := resolverValidation c;
     responseInit := responseInit c |}.

Definition set_resolverValidation (v : option Validation.t) (c : Context) : Context :=
  {| guardResult := guardResult c;
     paramsValidation := paramsValidation c;
     queryValidation := queryValidation c;
     bodyValidation := bodyValidation c;
     requestValidation := requestValidation c;
     resolverResult := resolverResult c;
     resolverValidation := v;
     responseInit := responseInit c |}.

Definition set_responseInit (v : ResponseInit.t) (c : Context) : Context :=
  {| guardResult := guardResult c;
     paramsValidation := paramsValidation c;
     queryValidation := queryValidation c;
     bodyValidation := bodyValidation c;
     requestValidation := requestValidation c;
     resolverResult := resolverResult c;
     resolverValidation := resolverValidation c;
     responseInit := v |}.

(** [context.requestValidation.pass = b] and
    [context.requestValidation.response = r]. *)
Definition set_requestValidation_pass (b : bool) (c : Context) : Context :=
  set_requestValidation
    {| RequestValidation.pass := JBool b;
       RequestValidation.response := RequestValidation.response (requestValidation c) |}
    c.

Definition set_requestValidation_response
    (r : RequestValidation.Response) (c : Context) : Context :=
  set_requestValidation
    {| RequestValidation.pass := RequestValidation.pass (requestValidation c);
       RequestValidation.response := r |}
    c.

(** ** Route declarations *)

Definition Method : Type := string.

(** The merged context handed to the resolver:
    [{...optContext, params, query, body}]. *)
Record ResolverContext : Type :=
  { spread : JsVal;
    params : JsVal;
    query : JsVal;
    body : JsVal }.

(** [{ctx, req}], and [res] as well for an uncontrolled resolver. *)
Module ResolverArgs.
Record t : Type :=
  { ctx : ResolverContext;
    req : Express.Request;
    res : option Express.Response }.
End ResolverArgs.

(** The resolver's return type: [any] when [UncontrolledResolver] is
    [true], a [ResponseShape] otherwise. *)
Definition ResolverReturn (UncontrolledResolver : bool) : Type :=
  if UncontrolledResolver then JsVal else ResponseShape JsVal.

(** A resolver of a controlled route, and one of an uncontrolled route. *)
Definition controlled (f : ResolverArgs.t -> JsError + ResponseShape JsVal)
  : ResolverArgs.t -> JsError + ResolverReturn false := f.
Definition uncontrolled (f : ResolverArgs.t -> JsError + JsVal)
  : ResolverArgs.t -> JsError + ResolverReturn true := f.

Module RequestSchemas.
Record t : Type :=
  { params : option Zod.ZodType;
    query : option Zod.ZodType;
    body : option Zod.ZodType }.
End RequestSchemas.

(** [HandlerOptions]; its type parameter [UncontrolledResolver] is the
    value of the field [uncontrolledResolver] ([false] when left out). *)
Record HandlerOptions (UncontrolledResolver : bool) : Type :=
  { context : option JsVal;
    method : Method;
    request : option RequestSchemas.t;
    response : option (gmap Z Zod.ZodType);
    guard : option (JsVal -> Express.Request -> JsError + GuardResult.t);
    resolver : ResolverArgs.t -> JsError + ResolverReturn UncontrolledResolver }.

Arguments context {_} _.
Arguments method {_} _.
Arguments request {_} _.
Arguments response {_} _.
Arguments guard {_} _.
Arguments resolver {_} _.

(** ** Effects *)

(** The JSON body given to [res.send]. *)
Module Envelope.
Record t : Type :=
  { success : JsVal;
    message : string;
    data : JsVal;
    error : JsVal }.
End Envelope.

Inductive Schema : Type :=
| ParamsSchema
| QuerySchema
| BodySchema
| ResponseSchema (statusCode : JsNumber).

Inductive Resolved : Type :=
| Controlled (result : ResponseShape JsVal)
| Uncontrolled (value : JsVal).

(** The calls the handler makes, each with what it got back. *)
Inductive Event : Type :=
| CallGuard (context : JsVal) (req : Express.Request) (r : JsError + GuardResult.t)
| CallSafeParse (schema : Schema) (input : JsVal) (r : JsError + Zod.SafeParseReturnType)
| CallResolver (args : ResolverArgs.t) (r : JsError + Resolved)
| ResStatus (code : JsNumber)
| ResSend (body : Envelope.t)
| CallNext (err : JsError).

(** What the [.then] callback evaluates to. *)
Inductive Returned : Type :=
| ResolverValue (value : JsVal)
| SendValue.

Inductive Completion (A : Type) : Type :=
| Normal (a : A)
| Return (v : Returned)
| Throw (e : JsError).
Arguments Normal {A} a.
Arguments Return {A} v.
Arguments Throw {A} e.

(** The state of one run: the scratch context object and the calls made so
    far, most recent first. *)
Record World : Type :=
  { store : Context;
    trace : list Event }.

Definition M (A : Type) : Type := World -> Completion A * World.

Definition ret {A} (a : A) : M A := fun w => (Normal a, w).

Definition bind {A B} (m : M A) (k : A -> M B) : M B :=
  fun w =>
    match m w with
    | (Normal a, w') => k a w'
    | (Return v, w') => (Return v, w')
    | (Throw e, w') => (Throw e, w')
    end.

Notation "'let*' x ':=' m 'in' k" := (bind m (fun x => k))
  (at level 10, x name, m at level 100, k at level 200, only parsing).
Notation "m ';;;' k" := (bind m (fun _ => k))
  (at level 100, k at level 200, right associativity, only parsing).

Definition throw {A} (e : JsError) : M A := fun w => (Throw e, w).
Definition return_ {A} (v : Returned) : M A := fun w => (Return v, w).

Definition emit (ev : Event) : M unit :=
  fun w => (Normal tt, {| store := store w; trace := ev :: trace w |}).

Definition get : M Context := fun w => (Normal (store w), w).

Definition modify (f : Context -> Context) : M unit :=
  fun w => (Normal tt, {| store := f (store w); trace := trace w |}).

(** [await call]: the call is recorded with its outcome; a throw or a
    rejection becomes a throw of the callback. *)
Definition await {A} (ev : JsError + A -> Event) (r : JsError + A) : M A :=
  emit (ev r);;;
  match r with
  | inl e => throw e
  | inr a => ret a
  end.

(** The outcome of a call, with its value relabelled for the trace. *)
Definition outcome {A B} (f : A -> B) (r : JsError + A) : JsError + B :=
  match r with
  | inl e => inl e
  | inr a => inr (f a)
  end.

(** Reading property [p] of [o]: a [TypeError] when [o] is [undefined]. *)
Definition prop {A} (o : option A) (p : string) : M A :=
  match o with
  | Some a => ret a
  | None => throw (TypeError ("Cannot read properties of undefined (reading '" ++ p ++ "')"))
  end.

(** ** createHandler *)

Record Local : Type :=
  { prevStep : string;
    currentStep : string }.

Record HandlerMeta : Type :=
  { meta_method : Method;
    handler : Express.Request -> Express.Response -> Context -> list Event * Context }.

Definition needsResponseSchema : string :=
  "The controlled resolver function needs at least one `response` schema.".

Section createHandler.

Context {UncontrolledResolver : bool}.
Variable options : HandlerOptions UncontrolledResolver.

(* extract handler options fields *)
Definition optContext : JsVal := default (JObj []) (context options).
Definition params_schema : option Zod.ZodType :=
  request options ≫= RequestSchemas.params.
Definition query_schema : option Zod.ZodType :=
  request options ≫= RequestSchemas.query.
Definition body_schema : option Zod.ZodType :=
  request options ≫= RequestSchemas.body.

Variable req : Express.Request.
Variable res : Express.Response.

(* 1. execute guard function if provided *)
Definition guardStage (l : Local) : M Local :=
  if String.eqb (currentStep l) (name (S001 steps)) then
    match guard options with
    | Some g =>
        let* r := await (CallGuard optContext req) (g optContext req) in
        modify (set_guardResult (Some r));;;
        let* c := get in
        let* gr := prop (guardResult c) "pass" in
        ret {| prevStep := name (S001 steps);
               currentStep := if GuardResult.pass gr
                              then GUARD_PASSED (on (S001 steps))
                              else GUARD_FAILED (on (S001 steps)) |}
    | None =>
        (* skip to next state if guard function is not provided *)
        ret {| prevStep := name (S001 steps);
               currentStep := GUARD_SKIPPED (on (S001 steps)) |}
    end
  else ret l.

(** [if (schema) context.slot = schema.safeParse(input)] *)
Definition parseInto (which : Schema) (schema : option Zod.ZodType) (input : JsVal)
    (set : Validation.t -> Context -> Context) : M unit :=
  match schema with
  | Some s =>
      let* r := await (CallSafeParse which input) (Zod.safeParse s input) in
      modify (set (Validation.of_zod r))
  | None => ret tt
  end.

(* 2. run request validations (params, query, input) and safe parse *)
Definition requestValidationStage (l : Local) : M Local :=
  if String.eqb (currentStep l) (name (S002 steps)) then
    (* skip to next state if no request validations are provided *)
    if forallb (fun v : option Zod.ZodType => negb (bool_decide (is_Some v)))
         [params_schema; query_schema; body_schema]
    then ret {| prevStep := name (S002 steps);
                currentStep := REQUEST_VALIDATION_SKIPPED (on (S002 steps)) |}
    else
      parseInto ParamsSchema params_schema (Express.params req) set_paramsValidation;;;
      parseInto QuerySchema query_schema (Express.query req) set_queryValidation;;;
      parseInto BodySchema body_schema (Express.body req) set_bodyValidation;;;
      let* c := get in
      (* check if there is validation failure *)
      let validationFailed :=
        existsb (fun v => strictEqBool v false)
          [Validation.success (paramsValidation c);
           Validation.success (queryValidation c);
           Validation.success (bodyValidation c)] in
      modify (set_requestValidation_pass (negb validationFailed));;;
      modify (fun c =>
        set_requestValidation_response
          {| RequestValidation.params := Some (paramsValidation c);
             RequestValidation.query := Some (queryValidation c);
             RequestValidation.body := Some (bodyValidation c) |} c);;;
      ret {| prevStep := name (S002 steps);
             currentStep := if validationFailed
                            then REQUEST_VALIDATION_FAILED (on (S002 steps))
                            else REQUEST_VALIDATION_PASSED (on (S002 steps)) |}
  else ret l.

(** [slot?.data] *)
Definition dataOf (slot : option Validation.t) : JsVal :=
  from_option Validation.data JUndefined slot.

(* construct context object *)
Definition mergedContext (c : Context) : ResolverContext :=
  let rv := RequestValidation.response (requestValidation c) in
  {| spread := optContext;
     params := dataOf (RequestValidation.params rv);
     query := dataOf (RequestValidation.query rv);
     body := dataOf (RequestValidation.body rv) |}.

(* 3. run resolver function *)
Definition resolverStage (l : Local) : M Local :=
  if String.eqb (currentStep l) (name (S003 steps)) then
    let* c := get in
    let ctx := mergedContext c in
    (match UncontrolledResolver as u
           return (ResolverArgs.t -> JsError + ResolverReturn u) -> M Local with
     | false => fun resolver =>
         (* execute resolver and move to next step *)
         let args := {| ResolverArgs.ctx := ctx; ResolverArgs.req := req;
                       ResolverArgs.res := None |} in
         let* r := await (fun r => CallResolver args (outcome Controlled r)) (resolver args) in
         modify (set_resolverResult r);;;
         ret {| prevStep := name (S003 steps);
                currentStep := RESOLVER_DONE (on (S003 steps)) |}
     | true => fun resolver =>
         (* execute resolver and exit the handler if resolver is set as uncontrolled *)
         let args := {| ResolverArgs.ctx := ctx; ResolverArgs.req := req;
                       ResolverArgs.res := Some res |} in
         let* v := await (fun r => CallResolver args (outcome Uncontrolled r)) (resolver args) in
         return_ (ResolverValue v)
     end) (resolver options)
  else ret l.

(* 4. validate and safe parse response *)
Definition resolverValidationStage (l : Local) : M Local :=
  if String.eqb (currentStep l) (name (S004 steps)) then
    let* c := get in
    let result := resolverResult c in
    (* get the first entry as a result *)
    let firstEntryKey := firstKey result in
    let firstEntry := getEntry result firstEntryKey in
    (* reject running the resolver validation if there is no response schema provided *)
    (if negb UncontrolledResolver
        && negb (bool_decide (is_Some (getSchema (response options) firstEntryKey)))
     then throw (Error needsResponseSchema)
     else ret tt);;;
    (* if response schema is provided, validate the result *)
    (match getSchema (response options) firstEntryKey with
     | Some s =>
         let* r := await (CallSafeParse (ResponseSchema firstEntryKey) firstEntry)
                         (Zod.safeParse s firstEntry) in
         modify (set_resolverValidation (Some (Validation.of_zod r)))
     | None => modify (set_resolverValidation None)
     end);;;
    ret {| prevStep := name (S004 steps);
           currentStep := RESOLVER_VALIDATION_DONE (on (S004 steps)) |}
  else ret l.

(** [v?.success === true ? null : v.error.format()] *)
Definition formatUnlessSuccess (v : option Validation.t) : M JsVal :=
  if strictEqBool (from_option Validation.success JUndefined v) true then ret JNull
  else
    let* o := prop v "error" in
    let* e := prop (Validation.error o) "format" in
    ret (Zod.format e).

(* 5. send response *)
Definition sendResponseStage (l : Local) : M unit :=
  if String.eqb (currentStep l) (name (S005 steps)) then
    let* c := get in
    let* guardFailed :=
      if String.eqb (prevStep l) (name (S001 steps)) then
        let* gr := prop (guardResult c) "pass" in
        ret (negb (GuardResult.pass gr))
      else ret false in
    (* 5.1: if previous step is 'guard', the guard must have failed *)
    if guardFailed then
      let* gr := prop (guardResult c) "response" in
      modify (set_responseInit
        {| ResponseInit.statusCode := Int 401;
           ResponseInit.success := JBool false;
           ResponseInit.message := "Unauthorized.";
           ResponseInit.data := JNull;
           ResponseInit.error := GuardResult.response gr |})
    (* 5.2: if previous step is 'request validation', the request validation must have failed *)
    else if String.eqb (prevStep l) (name (S002 steps)) then
      let rv := RequestValidation.response (requestValidation c) in
      let* eparams := formatUnlessSuccess (RequestValidation.params rv) in
      let* equery := formatUnlessSuccess (RequestValidation.query rv) in
      let* ebody := formatUnlessSuccess (RequestValidation.body rv) in
      let error := JObj [("params", eparams); ("query", equery); ("body", ebody)] in
      modify (set_responseInit
        {| ResponseInit.statusCode := Int 400;
           ResponseInit.success := JBool false;
           ResponseInit.message := "Validation Failed.";
           ResponseInit.data := JNull;
           ResponseInit.error := error |})
    (* 5.3: if previous step is 'resolver_validation', should response with the resolver validation *)
    else
      let result := resolverResult c in
      let* resolverValidation := prop (resolverValidation c) "success" in
      let ok := Validation.success resolverValidation in
      (* status code and status message to response back *)
      let statusCode := firstKey result in
      let '(statusCode, message) :=
        if num_lt statusCode 400 && strictEqBool ok false
        then (Int 400, "Response validation failed.")
        else if strictEqBool ok true && num_ge statusCode 400
        then (statusCode, "Failed.")
        else (statusCode, "Success.") in
      let* error :=
        if strictEqBool ok true then ret JNull
        else
          let* e := prop (Validation.error resolverValidation) "format" in
          ret (Zod.format e) in
      modify (set_responseInit
        {| ResponseInit.statusCode := statusCode;
           ResponseInit.success := ok;
           ResponseInit.message := message;
           ResponseInit.data :=
             if strictEqBool ok true then Validation.data resolverValidation else JNull;
           ResponseInit.error := error |})
  else ret tt.

(* response with the safe parsed result *)
Definition respond : M unit :=
  let* c := get in
  let init := responseInit c in
  emit (ResStatus (ResponseInit.statusCode init));;;
  emit (ResSend {| Envelope.success := ResponseInit.success init;
                   Envelope.message := ResponseInit.message init;
                   Envelope.data := ResponseInit.data init;
                   Envelope.error := ResponseInit.error init |});;;
  return_ SendValue.

Definition start : Local :=
  {| prevStep := name (S001 steps); currentStep := name (S001 steps) |}.

(** The body of the [.then] callback. *)
Definition callback : M unit :=
  let* l := guardStage start in
  let* l := requestValidationStage l in
  let* l := resolverStage l in
  let* l := resolverValidationStage l in
  sendResponseStage l;;;
  respond.

End createHandler.

(** [Promise.resolve().then(callback).catch(next)]: whatever the callback
    throws goes to [next]; the handler's own promise settles with nothing.
    A run is given the shared context object as it stands and yields the
    calls it made, in the order they were made, and the object as it
    leaves it. *)
Definition createHandler {UncontrolledResolver : bool}
    (options : HandlerOptions UncontrolledResolver) : HandlerMeta :=
  {| meta_method := method options;
     handler := fun req res shared =>
       match callback options req res {| store := shared; trace := [] |} with
       | (Throw e, w) => (rev (CallNext e :: trace w), store w)
       | (_, w) => (rev (trace w), store w)
       end |}.

(** ** Routes used as concrete instances *)

Module Scenario.

(** [obj[key]] on a JSON object. *)
Fixpoint field (key : string) (fields : list (string * JsVal)) : JsVal :=
  match fields with
  | [] => JUndefined
  | (k, v) :: rest => if String.eqb k key then v else field key rest
  end.

Definition issue (key message : string) : Zod.ZodError :=
  {| Zod.format :=
       JObj [("_errors", JArr []);
             (key, JObj [("_errors", JArr [JStr message])])] |}.

(** [z.object({ id: z.number() })] *)
Definition idNumber : Zod.ZodType :=
  {| Zod.safeParse := fun input =>
       match input with
       | JObj fields =>
           match field "id" fields with
           | JNum n => inr (Zod.SafeParseSuccess (JObj [("id", JNum n)]))
           | JUndefined => inr (Zod.SafeParseError (issue "id" "Required"))
           | _ => inr (Zod.SafeParseError (issue "id" "Expected number"))
           end
       | _ => inr (Zod.SafeParseError
                     {| Zod.format := JObj [("_errors", JArr [JStr "Expected object"])] |})
       end |}.

(** [z.object({ name: z.string() })] *)
Definition nameString : Zod.ZodType :=
  {| Zod.safeParse := fun input =>
       match input with
       | JObj fields =>
           match field "name" fields with
           | JStr n => inr (Zod.SafeParseSuccess (JObj [("name", JStr n)]))
           | JUndefined => inr (Zod.SafeParseError (issue "name" "Required"))
           | _ => inr (Zod.SafeParseError (issue "name" "Expected string"))
           end
       | _ => inr (Zod.SafeParseError
                     {| Zod.format := JObj [("_errors", JArr [JStr "Expected object"])] |})
       end |}.

(** A schema with a refinement that throws. *)
Definition throwing : Zod.ZodType :=
  {| Zod.safeParse := fun _ => inl (Error "refinement threw") |}.

Definition one : JsVal := JObj [("id", JNum 1)].

Definition emptyRequest : Express.Request :=
  {| Express.params := JObj []; Express.query := JObj []; Express.body := JObj [] |}.

(** A request whose params, query and body all carry [id] and [name]. *)
Definition fullRequest : Express.Request :=
  let v := JObj [("id", JNum 7); ("name", JStr "turtle")] in
  {| Express.params := v; Express.query := v; Express.body := v |}.

(** The same request with params that have no [id]. *)
Definition badParamsRequest : Express.Request :=
  {| Express.params := JObj [("name", JStr "turtle")];
     Express.query := Express.query fullRequest;
     Express.body := Express.body fullRequest |}.

(** Scenario A: no guard, no request schemas, the resolver answers
    [{200: {id: 1}}]. *)
Definition routeA : HandlerOptions false :=
  {| context := None;
     method := "GET";
     request := None;
     response := Some {[ 200%Z := idNumber ]};
     guard := None;
     resolver := controlled (fun _ => inr [(200%Z, one)]) |}.

(** Scenario B: the guard refuses. *)
Definition routeB : HandlerOptions false :=
  {| context := None;
     method := "GET";
     request := None;
     response := Some {[ 200%Z := idNumber ]};
     guard := Some (fun _ _ =>
       inr {| GuardResult.pass := false; GuardResult.response := JStr "no token" |});
     resolver := controlled (fun _ => inr [(200%Z, one)]) |}.

(** Scenario C: only a body schema. *)
Definition routeC : HandlerOptions false :=
  {| context := None;
     method := "POST";
     request := Some {| RequestSchemas.params := None;
                        RequestSchemas.query := None;
                        RequestSchemas.body := Some nameString |};
     response := Some {[ 200%Z := idNumber ]};
     guard := None;
     resolver := controlled (fun _ => inr [(200%Z, one)]) |}.

(** Scenario D: an uncontrolled resolver and no [response] at all. *)
Definition routeD : HandlerOptions true :=
  {| context := None;
     method := "GET";
     request := None;
     response := None;
     guard := None;
     resolver := uncontrolled (fun _ => inr (JStr "sent by the resolver")) |}.

(** A route validating params, query and body. *)
Definition routeAll : HandlerOptions false :=
  {| context := None;
     method := "PUT";
     request := Some {| RequestSchemas.params := Some idNumber;
                        RequestSchemas.query := Some nameString;
                        RequestSchemas.body := Some nameString |};
     response := Some {[ 200%Z := idNumber ]};
     guard := None;
     resolver := controlled (fun _ => inr [(200%Z, one)]) |}.

(** A controlled resolver answering status [s] with [payload], under a
    response map that declares [idNumber] for 200, 201 and 404. *)
Definition answering (s : Z) (payload : JsVal) : HandlerOptions false :=
  {| context := None;
     method := "GET";
     request := None;
     response := Some {[ 200%Z := idNumber; 201%Z := idNumber; 404%Z := idNumber ]};
     guard := None;
     resolver := controlled (fun _ => inr [(s, payload)]) |}.

(** A controlled resolver answering [result], under the same response map. *)
Definition answeringAll (result : ResponseShape JsVal) : HandlerOptions false :=
  {| context := None;
     method := "GET";
     request := None;
     response := Some {[ 200%Z := idNumber; 201%Z := idNumber; 404%Z := idNumber ]};
     guard := None;
     resolver := controlled (fun _ => inr result) |}.

(** What the resolver of [routeC] is called with for [fullRequest]: the
    body as its schema parsed it. *)
Definition parsedArgs : ResolverArgs.t :=
  {| ResolverArgs.ctx :=
       {| spread := JObj [];
          params := JUndefined;
          query := JUndefined;
          body := JObj [("name", JStr "turtle")] |};
     ResolverArgs.req := fullRequest;
     ResolverArgs.res := None |}.

(** Routes whose guard, validator or resolver fails. *)
Definition guardThrows : HandlerOptions false :=
  {| context := None;
     method := "GET";
     request := None;
     response := Some {[ 200%Z := idNumber ]};
     guard := Some (fun _ _ => inl (Error "guard rejected"));
     resolver := controlled (fun _ => inr [(200%Z, one)]) |}.

Definition validatorThrows : HandlerOptions false :=
  {| context := None;
     method := "POST";
     request := Some {| RequestSchemas.params := None;
                        RequestSchemas.query := None;
                        RequestSchemas.body := Some throwing |};
     response := Some {[ 200%Z := idNumber ]};
     guard := None;
     resolver := controlled (fun _ => inr [(200%Z, one)]) |}.

Definition resolverThrows : HandlerOptions false :=
  {| context := None;
     method := "GET";
     request := None;
     response := Some {[ 200%Z := idNumber ]};
     guard := None;
     resolver := controlled (fun _ => inl (Error "database is down")) |}.

(** The arguments of a resolver called with nothing validated. *)
Definition plainArgs (req : Express.Request) (res : option Express.Response)
  : ResolverArgs.t :=
  {| ResolverArgs.ctx :=
       {| spread := JObj []; params := JUndefined; query := JUndefined;
          body := JUndefined |};
     ResolverArgs.req := req;
     ResolverArgs.res := res |}.

(** A content the scratch context may have before the first request (the
    initial value itself is in handler-function-steps.ts): every validation
    slot holds a success and nothing else is recorded. *)
Definition blank : Context :=
  let ok := {| Validation.success := JBool true;
               Validation.data := JUndefined;
               Validation.error := None |} in
  {| guardResult := None;
     paramsValidation := ok;
     queryValidation := ok;
     bodyValidation := ok;
     requestValidation :=
       {| RequestValidation.pass := JBool false;
          RequestValidation.response :=
            {| RequestValidation.params := None;
               RequestValidation.query := None;
               RequestValidation.body := None |} |};
     resolverResult := [];
     resolverValidation := None;
     responseInit :=
       {| ResponseInit.statusCode := Int 200;
          ResponseInit.success := JBool false;
          ResponseInit.message := "";
          ResponseInit.data := JNull;
          ResponseInit.error := JNull |} |}.

End Scenario.

(** * The vocabulary of the properties *)

(** ** Events by kind *)

(** The error of a collaborator's call that threw or rejected. *)
Definition failure (ev : Event) : option JsError :=
  match ev with
  | CallGuard _ _ (inl e) => Some e
  | CallSafeParse _ _ (inl e) => Some e
  | CallResolver _ (inl e) => Some e
  | _ => None
  end.

(** The guard call and the parses of the request. *)
Definition gateEvent (ev : Event) : Prop :=
  match ev with
  | CallGuard _ _ _ => True
  | CallSafeParse (ParamsSchema | QuerySchema | BodySchema) _ _ => True
  | _ => False
  end.

(** What the executor itself writes to the response. *)
Definition responseEvent (ev : Event) : Prop :=
  match ev with
  | ResStatus _ | ResSend _ => True
  | _ => False
  end.

(** What stages 4 and 5 and the send may emit. *)
Definition finalEvent (ev : Event) : Prop :=
  match ev with
  | CallSafeParse (ResponseSchema _) _ _ | ResStatus _ | ResSend _ => True
  | _ => False
  end.

Definition resolverCall (ev : Event) : Prop :=
  match ev with
  | CallResolver _ _ => True
  | _ => False
  end.

(** Neither a failed call nor a call of [next]. *)
Definition quiet (ev : Event) : Prop :=
  failure ev = None /\ match ev with CallNext _ => False | _ => True end.

(** The fields written by the stages after request validation. *)
Definition tailFields (c : Context)
  : ResponseShape JsVal * option Validation.t * ResponseInit.t :=
  (resolverResult c, resolverValidation c, responseInit c).

(** The fields written by the guard and request validation stages. *)
Definition gateFields (c : Context)
  : option GuardResult.t * Validation.t * Validation.t * Validation.t
    * RequestValidation.t :=
  (guardResult c, paramsValidation c, queryValidation c, bodyValidation c,
   requestValidation c).

(** The values of [prevStep] and [currentStep] that leave stage 2. *)
Definition guardFailed : Local :=
  {| prevStep := "guard"; currentStep := "send_response" |}.
Definition validationFailed : Local :=
  {| prevStep := "request_validation"; currentStep := "send_response" |}.
Definition toResolver : Local :=
  {| prevStep := "request_validation"; currentStep := "resolver" |}.
Definition toValidation : Local :=
  {| prevStep := "resolver"; currentStep := "resolver_validation" |}.

Section stages.

Context {UncontrolledResolver : bool}.
Variable options : HandlerOptions UncontrolledResolver.
Variable req : Express.Request.
Variable res : Express.Response.

(** Stages 1 and 2. *)
Definition gate : M Local :=
  let* l := guardStage options req start in
  requestValidationStage options req l.

(** Stages 4 and 5 and the send. *)
Definition finish (l : Local) : M unit :=
  let* l := resolverValidationStage options l in
  sendResponseStage l;;;
  respond.

End stages.

(** Where stage 1 leaves [prevStep] and [currentStep]. *)
Definition guardDone (l : Local) : Prop :=
  l = guardFailed \/
  l = {| prevStep := "guard"; currentStep := "request_validation" |}.

Definition gateDone (l : Local) : Prop :=
  l = guardFailed \/ l = validationFailed \/ l = toResolver.

(** ** What the handler hands to express *)

(** Neither a write to the response nor a call of [next]. *)
Definition silent (ev : Event) : Prop :=
  match ev with
  | ResStatus _ | ResSend _ | CallNext _ => False
  | _ => True
  end.

(** The run ends with [res.status(code)] and [res.send(envelope)], writes
    nothing else to the response and does not call [next]. *)
Definition sends (tr : list Event) (code : JsNumber) (envelope : Envelope.t) : Prop :=
  exists pre, Forall silent pre /\ tr = (pre ++ [ResStatus code; ResSend envelope])%list.

(** The run ends with [next(e)] and writes nothing to the response. *)
Definition forwards (tr : list Event) (e : JsError) : Prop :=
  exists pre, Forall silent pre /\ tr = (pre ++ [CallNext e])%list.

(** ** What a computation emits, keeps and yields

    [spec P f Q m]: from any state, [m] adds only events of kind [P] to the
    trace, leaves [f] of the context as it was, and a normal completion
    carries a value in [Q]. *)

Definition spec {A X} (P : Event -> Prop) (f : Context -> X) (Q : A -> Prop)
    (m : M A) : Prop :=
  forall w,
    (exists d, trace (snd (m w)) = (d ++ trace w)%list /\ Forall P d)
    /\ f (store (snd (m w))) = f (store w)
    /\ match fst (m w) with Normal a => Q a | _ => True end.

(** Evaluation of the primitives of [M]. *)
Ltac exec :=
  unfold bind, await, emit, modify, get, ret, throw, return_, prop; cbn.
Tactic Notation "exec" "in" hyp(H) :=
  unfold bind, await, emit, modify, get, ret, throw, return_, prop in H; cbn in H.

(** ** Routes that differ in their response map *)

Definition withResponse {U} (r : option (gmap Z Zod.ZodType))
    (options : HandlerOptions U) : HandlerOptions U :=
  {| context := context options;
     method := method options;
     request := request options;
     response := r;
     guard := guard options;
     resolver := resolver options |}.

(** ** Failures *)

(** [orderly r]: the calls made so far all succeeded and [next] was not
    called, except that a thrown error may come from the last call. *)
Definition orderly {A} (r : Completion A * World) : Prop :=
  match fst r with
  | Throw e =>
      Forall quiet (trace (snd r))
      \/ exists ev pre,
           trace (snd r) = ev :: pre /\ failure ev = Some e /\ Forall quiet pre
  | _ => Forall quiet (trace (snd r))
  end.

Definition safe {A} (m : M A) : Prop :=
  forall w, Forall quiet (trace w) -> orderly (m w).

(** ** Replaying a request *)

(** The slots written by request validation. *)
Definition validationFields (c : Context)
  : Validation.t * Validation.t * Validation.t * RequestValidation.t :=
  (paramsValidation c, queryValidation c, bodyValidation c, requestValidation c).

(** [v?.success === true ? null : v.error.format()] neither reads nor
    writes the context. *)
Definition formatted (v : option Validation.t) : Completion JsVal :=
  if strictEqBool (from_option Validation.success JUndefined v) true then Normal JNull
  else
    match v with
    | None => Throw (TypeError "Cannot read properties of undefined (reading 'error')")
    | Some o =>
        match Validation.error o with
        | None => Throw (TypeError "Cannot read properties of undefined (reading 'format')")
        | Some e => Normal (Zod.format e)
        end
    end.

(** ** The outcome of request validation, field by field *)

(** What happened to one of params, query, body in stage 2. *)
Inductive FieldOutcome : Type :=
| Unconfigured
| Passed (data : JsVal)
| Failed (error : Zod.ZodError).

(** [fieldOutcome schema input slot o]: a configured schema parsed [input]
    with outcome [o]; for a field without schema, the slot found in the
    context holds [success: true]. *)
Definition fieldOutcome (schema : option Zod.ZodType) (input : JsVal)
    (slot : Validation.t) (o : FieldOutcome) : Prop :=
  match schema, o with
  | None, Unconfigured => Validation.success slot = JBool true
  | Some s, Passed d => Zod.safeParse s input = inr (Zod.SafeParseSuccess d)
  | Some s, Failed e => Zod.safeParse s input = inr (Zod.SafeParseError e)
  | _, _ => False
  end.

Definition fieldError (o : FieldOutcome) : JsVal :=
  match o with
  | Failed e => Zod.format e
  | _ => JNull
  end.

Definition fieldFailed (o : FieldOutcome) : bool :=
  match o with
  | Failed _ => true
  | _ => false
  end.

(** The guard is absent or answers [pass: true]. *)
Definition guardLetsThrough {U} (options : HandlerOptions U) (req : Express.Request)
  : Prop :=
  match guard options with
  | None => True
  | Some g => exists r, g (optContext options) req
                        = inr {| GuardResult.pass := true; GuardResult.response := r |}
  end.

(** ** Vocabulary of the further properties *)

(** What a status code and the envelope sent with it have in common. *)
Definition consistent (code : JsNumber) (envelope : Envelope.t) : Prop :=
  exists n,
    code = Int n /\
    ((Envelope.success envelope = JBool true
      /\ Envelope.error envelope = JNull
      /\ Envelope.message envelope
         = (if (n <? 400)%Z then "Success." else "Failed."))
     \/ (Envelope.success envelope = JBool false
         /\ Envelope.data envelope = JNull
         /\ (400 <= n)%Z)).

(** [proceeds m]: [m] completes normally or throws; it has no [return]. *)
Definition proceeds {A} (m : M A) : Prop :=
  forall w, match fst (m w) with Return _ => False | _ => True end.

(** How a run of the callback can end, with the calls made, most recent
    first. *)
Definition ending {U} (options : HandlerOptions U) (r : Completion unit * World) : Prop :=
  match fst r with
  | Normal _ => False
  | Return SendValue =>
      exists code envelope pre,
        trace (snd r) = ResSend envelope :: ResStatus code :: pre
        /\ Forall silent pre /\ consistent code envelope
  | Return (ResolverValue v) =>
      U = true /\
      exists args pre,
        trace (snd r) = CallResolver args (inr (Uncontrolled v)) :: pre
        /\ Forall gateEvent pre
  | Throw e => Forall silent (trace (snd r))
  end.

(** A call of the guard. *)
Definition guardCall (ev : Event) : Prop :=
  match ev with
  | CallGuard _ _ _ => True
  | _ => False
  end.

(** Stages 2 to 5 and the send. *)
Definition afterGuard {U} (options : HandlerOptions U) (req : Express.Request)
    (res : Express.Response) (l : Local) : M unit :=
  let* l := requestValidationStage options req l in
  let* l := resolverStage options req res l in
  finish options l.

(** The validation slots. *)
Definition slots (c : Context) : Validation.t * Validation.t * Validation.t :=
  (paramsValidation c, queryValidation c, bodyValidation c).

(** [parsedBy schema input d]: the configured schema accepted [input] with
    parsed data [d]; nothing is said of a field without schema. *)
Definition parsedBy (schema : option Zod.ZodType) (input d : JsVal) : Prop :=
  match schema with
  | Some s => Zod.safeParse s input = inr (Zod.SafeParseSuccess d)
  | None => True
  end.

(** [sameInputs options c c']: the contexts [c] and [c'] agree on what a
    run of the route can read of the context before writing it: the
    validation slot of each field without schema and, for a route without
    any request schema, the request validation response. *)
Definition sameInputs {U} (options : HandlerOptions U) (c c' : Context) : Prop :=
  match params_schema options with
  | None => paramsValidation c = paramsValidation c'
  | Some _ => True
  end
  /\ match query_schema options with
     | None => queryValidation c = queryValidation c'
     | Some _ => True
     end
  /\ match body_schema options with
     | None => bodyValidation c = bodyValidation c'
     | Some _ => True
     end
  /\ match params_schema options, query_schema options, body_schema options with
     | None, None, None =>
         RequestValidation.response (requestValidation c)
         = RequestValidation.response (requestValidation c')
     | _, _, _ => True
     end.

(** * Lemmas *)

(** ** Laws of the monad *)

Lemma bind_assoc {A B C} (m : M A) (k : A -> M B) (h : B -> M C) w :
  bind (bind m k) h w = bind m (fun a => bind (k a) h) w.
Proof. unfold bind. destruct (m w) as [[a|v|e] w']; reflexivity. Qed.

Lemma callback_stages {U} (options : HandlerOptions U) req res w :
  callback options req res w =
  bind (gate options req)
       (fun l => bind (resolverStage options req res l) (finish options)) w.
Proof. unfold callback, gate, finish. now rewrite bind_assoc. Qed.

Section spec.

Context {X : Type} (P : Event -> Prop) (f : Context -> X).

Lemma spec_ret {A} (Q : A -> Prop) a : Q a -> spec P f Q (ret a).
Proof. intros Ha w. cbn. split; [by exists [] | done]. Qed.

Lemma spec_throw {A} (Q : A -> Prop) e : spec P f Q (throw e).
Proof. intros w. cbn. split; [by exists [] | done]. Qed.

Lemma spec_return {A} (Q : A -> Prop) v : spec P f Q (return_ v).
Proof. intros w. cbn. split; [by exists [] | done]. Qed.

Lemma spec_get (Q : Context -> Prop) : (forall c, Q c) -> spec P f Q get.
Proof. intros HQ w. cbn. split; [by exists [] | done]. Qed.

Lemma spec_emit (Q : unit -> Prop) ev : P ev -> Q tt -> spec P f Q (emit ev).
Proof.
  intros Hev HQ w. cbn. split; [|done].
  exists [ev]. split; [done | by constructor].
Qed.

Lemma spec_modify (Q : unit -> Prop) g :
  (forall c, f (g c) = f c) -> Q tt -> spec P f Q (modify g).
Proof. intros Hg HQ w. cbn. split; [by exists [] | done]. Qed.

Lemma spec_bind {A B} (Q : B -> Prop) (m : M A) (k : A -> M B) :
  spec P f (fun _ => True) m -> (forall a, spec P f Q (k a)) ->
  spec P f Q (bind m k).
Proof.
  intros Hm Hk w. unfold bind.
  destruct (Hm w) as ([d [Hd HP]] & Hf & _).
  destruct (m w) as [[a|v|e] w']; cbn in *.
  - destruct (Hk a w') as ([d' [Hd' HP']] & Hf' & HQ).
    split; [|split; [congruence | done]].
    exists (d' ++ d)%list. split.
    + rewrite Hd', Hd. by rewrite app_assoc.
    + by apply Forall_app.
  - split; [by exists d | done].
  - split; [by exists d | done].
Qed.

Lemma spec_prop {A} (Q : A -> Prop) (o : option A) p :
  (forall a, Q a) -> spec P f Q (prop o p).
Proof. intros HQ. destruct o; [by apply spec_ret | apply spec_throw]. Qed.

Lemma spec_await {A} (Q : A -> Prop) (ev : JsError + A -> Event) r :
  P (ev r) -> (forall a, Q a) -> spec P f Q (await ev r).
Proof.
  intros Hev HQ. unfold await. apply spec_bind.
  - by apply spec_emit.
  - intros _. destruct r; [apply spec_throw | by apply spec_ret].
Qed.

End spec.

(** One step of a proof of [spec]: the rule of the primitive at the head, or
    a case split on what the computation inspects. *)
Ltac spec_step :=
  first
    [ apply spec_bind; [|intros ?]
    | apply spec_ret | apply spec_throw | apply spec_return | apply spec_get
    | apply spec_emit | apply spec_modify | apply spec_prop | apply spec_await
    | case_match ].

Ltac spec_auto := repeat spec_step; try done; cbn; auto.

Section stage_specs.

Context {U : bool} (options : HandlerOptions U).
Variables (req : Express.Request) (res : Express.Response).

Lemma guardStage_spec :
  spec gateEvent tailFields guardDone (guardStage options req start).
Proof. unfold guardStage, guardDone. cbn. spec_auto. Qed.

Lemma parseInto_spec which schema input set :
  gateEvent (CallSafeParse which input (inl (Error ""))) ->
  (forall v c, tailFields (set v c) = tailFields c) ->
  spec gateEvent tailFields (fun _ => True) (parseInto which schema input set).
Proof.
  intros Hev Hset. unfold parseInto. spec_auto.
Qed.

Lemma requestValidationStage_spec l :
  guardDone l ->
  spec gateEvent tailFields gateDone (requestValidationStage options req l).
Proof.
  intros [-> | ->]; unfold requestValidationStage, gateDone; cbn.
  - spec_auto.
  - case_match; [spec_auto|].
    repeat (apply spec_bind; [try (apply parseInto_spec; done)|intros ?]);
      spec_auto.
Qed.

Lemma gate_spec : spec gateEvent tailFields gateDone (gate options req).
Proof.
  unfold gate. intros w.
  destruct (guardStage_spec w) as ([d [Hd HP]] & Hf & Hl).
  unfold bind. destruct (guardStage options req start w) as [[l|v|e] w1]; cbn in *.
  - destruct (requestValidationStage_spec l Hl w1) as ([d' [Hd' HP']] & Hf' & Hl').
    split; [|split; [congruence | done]].
    exists (d' ++ d)%list. rewrite Hd', Hd, app_assoc. split; [done|].
    by apply Forall_app.
  - split; [by exists d | done].
  - split; [by exists d | done].
Qed.

(** Stages 3 to 5 and the send leave alone what stages 1 and 2 wrote, and
    emit no guard call and no parse of the request. *)
Lemma resolverStage_spec l :
  spec resolverCall gateFields (fun _ => True) (resolverStage options req res l).
Proof.
  unfold resolverStage. case_match; [|spec_auto].
  apply spec_bind; [spec_auto|]. intros c.
  destruct U; cbn; spec_auto.
Qed.

Lemma resolverValidationStage_spec l :
  spec finalEvent gateFields (fun _ => True) (resolverValidationStage options l).
Proof. unfold resolverValidationStage. spec_auto. Qed.

Lemma sendResponseStage_spec l :
  spec finalEvent gateFields (fun _ => True) (sendResponseStage l).
Proof.
  unfold sendResponseStage, formatUnlessSuccess.
  destruct l as [p c]. cbn.
  repeat case_match; spec_auto.
Qed.

Lemma respond_spec : spec finalEvent gateFields (fun _ => True) respond.
Proof. unfold respond. spec_auto. Qed.

Lemma finish_spec l :
  spec finalEvent gateFields (fun _ => True) (finish options l).
Proof.
  unfold finish.
  apply spec_bind; [apply resolverValidationStage_spec|]. intros l'.
  apply spec_bind; [apply sendResponseStage_spec|]. intros _.
  apply respond_spec.
Qed.

(** After a refusal by the guard or by request validation, stages 3 and 4
    are skipped. *)
Lemma refused_skips l w :
  l = guardFailed \/ l = validationFailed ->
  bind (resolverStage options req res l) (finish options) w
  = bind (sendResponseStage l) (fun _ => respond) w.
Proof. intros [-> | ->]; reflexivity. Qed.

Lemma refused_spec l :
  l = guardFailed \/ l = validationFailed ->
  spec responseEvent gateFields (fun _ => True)
    (bind (sendResponseStage l) (fun _ => respond)).
Proof.
  intros Hl. apply spec_bind.
  - unfold sendResponseStage, formatUnlessSuccess.
    destruct Hl as [-> | ->]; cbn; repeat case_match; spec_auto.
  - intros _. unfold respond. spec_auto.
Qed.

(** The resolver is called only when stages 1 and 2 lead to it. *)
Lemma resolver_reached w ev :
  Forall (fun ev => ~ resolverCall ev) (trace w) ->
  resolverCall ev ->
  In ev (trace (snd (callback options req res w))) ->
  exists w1 d,
    gate options req w = (Normal toResolver, w1)
    /\ trace w1 = (d ++ trace w)%list /\ Forall gateEvent d
    /\ tailFields (store w1) = tailFields (store w).
Proof.
  intros Hw Hev Hin. rewrite callback_stages in Hin.
  destruct (gate_spec w) as ([d [Hd HP]] & Hf & Hl).
  unfold bind at 1 in Hin.
  destruct (gate options req w) as [[l|v|e] w1]; cbn in Hd, Hf, Hl, Hin.
  - destruct Hl as [Hl | [Hl | ->]]; [| |by eauto 6].
    all: rewrite refused_skips in Hin by auto.
    all: destruct (refused_spec l ltac:(auto) w1) as ([d' [Hd' HP']] & _).
    all: rewrite Hd', Hd in Hin.
    all: apply in_app_or in Hin as [Hin | Hin];
      [rewrite Forall_forall in HP'; apply list_elem_of_In, HP' in Hin;
       by destruct ev|].
    all: apply in_app_or in Hin as [Hin | Hin];
      [rewrite Forall_forall in HP; apply list_elem_of_In, HP in Hin;
       by destruct ev|].
    all: rewrite Forall_forall in Hw; apply list_elem_of_In, Hw in Hin; done.
  - rewrite Hd in Hin. apply in_app_or in Hin as [Hin | Hin].
    + rewrite Forall_forall in HP. apply list_elem_of_In, HP in Hin. by destruct ev.
    + rewrite Forall_forall in Hw. apply list_elem_of_In, Hw in Hin. done.
  - rewrite Hd in Hin. apply in_app_or in Hin as [Hin | Hin].
    + rewrite Forall_forall in HP. apply list_elem_of_In, HP in Hin. by destruct ev.
    + rewrite Forall_forall in Hw. apply list_elem_of_In, Hw in Hin. done.
Qed.

End stage_specs.

Lemma gateEvent_silent ev : gateEvent ev -> silent ev.
Proof. by destruct ev. Qed.

Lemma handler_trace {U} (options : HandlerOptions U) req res shared :
  fst (handler (createHandler options) req res shared) =
  let r := callback options req res {| store := shared; trace := [] |} in
  rev (match fst r with
       | Throw e => CallNext e :: trace (snd r)
       | _ => trace (snd r)
       end).
Proof.
  cbn. by destruct (callback options req res _) as [[a|v|e] w].
Qed.

Lemma handler_store {U} (options : HandlerOptions U) req res shared :
  snd (handler (createHandler options) req res shared) =
  store (snd (callback options req res {| store := shared; trace := [] |})).
Proof.
  cbn. by destruct (callback options req res _) as [[a|v|e] w].
Qed.

Lemma resolver_call_in_callback {U} (options : HandlerOptions U) req res shared ev :
  resolverCall ev ->
  In ev (fst (handler (createHandler options) req res shared)) ->
  In ev (trace (snd (callback options req res {| store := shared; trace := [] |}))).
Proof.
  intros Hev. rewrite handler_trace. cbn. rewrite <- in_rev.
  destruct (callback options req res _) as [[a|v|e] w]; cbn; try done.
  intros [<- | H]; done.
Qed.

(** On a controlled route, a resolver that returned [result] was called
    after stages 1 and 2, and the run goes on with stage 4. *)
Lemma controlled_resolved (options : HandlerOptions false) req res shared args result :
  In (CallResolver args (inr (Controlled result)))
     (fst (handler (createHandler options) req res shared)) ->
  exists w1,
    Forall gateEvent (trace w1)
    /\ tailFields (store w1) = tailFields shared
    /\ resolver options args = inr result
    /\ callback options req res {| store := shared; trace := [] |}
       = finish options toValidation
           {| store := set_resolverResult result (store w1);
              trace := CallResolver args (inr (Controlled result)) :: trace w1 |}.
Proof.
  intros Hin. apply resolver_call_in_callback in Hin; [|done].
  destruct (resolver_reached options req res {| store := shared; trace := [] |}
              (CallResolver args (inr (Controlled result)))
              (List.Forall_nil _) I Hin)
    as (w1 & d & Hgate & Hd & HP & Hf).
  rewrite app_nil_r in Hd. cbn in Hd, Hf.
  exists w1. rewrite Hd. split; [done|]. split; [done|].
  rewrite callback_stages in Hin |- *.
  unfold bind at 1 in Hin. unfold bind at 1.
  rewrite Hgate in Hin |- *.
  unfold resolverStage in Hin |- *. cbn in Hin |- *.
  unfold bind at 1, get in Hin. unfold bind at 1, get. cbn in Hin |- *.
  set (a := {| ResolverArgs.ctx := _ |}) in *.
  unfold bind at 1 2, await, emit, modify in Hin.
  unfold bind at 1 2, await, emit, modify. cbn in Hin |- *.
  assert (Hcall :
    CallResolver a (outcome Controlled (resolver options a))
    = CallResolver args (inr (Controlled result))).
  { destruct (resolver options a) as [e|r] eqn:Hr; exec in Hin.
    - rewrite Hd in Hin. destruct Hin as [Hin | Hin]; [done|].
      rewrite Forall_forall in HP. by apply list_elem_of_In, HP in Hin.
    - fold toValidation in Hin.
      destruct (finish_spec options toValidation
                  {| store := set_resolverResult r (store w1);
                     trace := CallResolver a (inr (Controlled r)) :: trace w1 |})
        as ([d' [Hd' HP']] & _).
      rewrite Hd' in Hin. cbn in Hin.
      apply in_app_or in Hin as [Hin | [Hin | Hin]].
      + rewrite Forall_forall in HP'. by apply list_elem_of_In, HP' in Hin.
      + by rewrite <- Hin.
      + rewrite Hd in Hin. rewrite Forall_forall in HP.
        by apply list_elem_of_In, HP in Hin. }
  destruct (resolver options a) as [e|r] eqn:Hr; cbn in Hcall; simplify_eq.
  split; done.
Qed.

(** ** Controlled resolvers: stage 4 and the envelope of stage 5.3 *)

Lemma finish_controlled (options : HandlerOptions false) w :
  finish options toValidation w =
  let result := resolverResult (store w) in
  let key := firstKey result in
  match getSchema (response options) key with
  | None => (Throw (Error needsResponseSchema), w)
  | Some s =>
      let input := getEntry result key in
      let call := CallSafeParse (ResponseSchema key) input (Zod.safeParse s input) in
      match Zod.safeParse s input with
      | inl e => (Throw e, {| store := store w; trace := call :: trace w |})
      | inr r =>
          bind (sendResponseStage
                  {| prevStep := "resolver_validation"; currentStep := "send_response" |})
               (fun _ => respond)
               {| store := set_resolverValidation (Some (Validation.of_zod r)) (store w);
                  trace := call :: trace w |}
      end
  end.
Proof.
  unfold finish, resolverValidationStage. exec.
  destruct (getSchema (response options) (firstKey (resolverResult (store w)))) as [s|];
    cbn; [|done].
  by destruct (Zod.safeParse s _) as [e|r].
Qed.

Lemma gate_trace_silent (t : list Event) (tail : list Event) :
  Forall gateEvent t -> Forall silent tail -> Forall silent (rev t ++ tail).
Proof.
  intros Ht Htail. apply Forall_app. split; [|done].
  apply Forall_rev. eapply Forall_impl; [done|]. apply gateEvent_silent.
Qed.

Lemma getEntry_first (s : Z) (payload : JsVal) rest :
  getEntry ((s, payload) :: rest) (Int s) = payload.
Proof. cbn. by rewrite Z.eqb_refl. Qed.

(** C2: status-code override law.  On a controlled route whose resolver
    returned the single entry [s: payload], with [sch] the schema declared
    for [s]: if [s < 400] and [sch] rejects the payload, the envelope is sent
    with status 400, success false and message "Response validation
    failed."; if [s >= 400] and [sch] accepts the payload, the status stays
    [s], success is true and the message is "Failed.". *)
Theorem status_code_override (options : HandlerOptions false) req res shared
    args (s : Z) (payload : JsVal) (sch : Zod.ZodType) :
  In (CallResolver args (inr (Controlled [(s, payload)])))
     (fst (handler (createHandler options) req res shared)) ->
  getSchema (response options) (Int s) = Some sch ->
  (forall e,
      (s < 400)%Z ->
      Zod.safeParse sch payload = inr (Zod.SafeParseError e) ->
      sends (fst (handler (createHandler options) req res shared)) (Int 400)
        {| Envelope.success := JBool false;
           Envelope.message := "Response validation failed.";
           Envelope.data := JNull;
           Envelope.error := Zod.format e |})
  /\
  (forall d,
      (400 <= s)%Z ->
      Zod.safeParse sch payload = inr (Zod.SafeParseSuccess d) ->
      sends (fst (handler (createHandler options) req res shared)) (Int s)
        {| Envelope.success := JBool true;
           Envelope.message := "Failed.";
           Envelope.data := d;
           Envelope.error := JNull |}).
Proof.
  intros Hin Hsch.
  destruct (controlled_resolved _ _ _ _ _ _ Hin) as (w1 & Hsilent & _ & _ & Hcb).
  rewrite handler_trace, Hcb, finish_controlled. cbn -[getEntry].
  rewrite Hsch, getEntry_first.
  split.
  - intros e Hs Hparse. rewrite Hparse. exec.
    destruct (Z.ltb_spec s 400); [|lia]. cbn.
    eexists (rev (trace w1) ++ [_; _])%list. split; cycle 1.
    + by rewrite <- !app_assoc.
    + apply gate_trace_silent; [done|]. by repeat apply List.Forall_cons.
  - intros d Hs Hparse. rewrite Hparse. exec.
    destruct (Z.ltb_spec s 400); [lia|].
    destruct (Z.leb_spec 400 s); [|lia]. cbn.
    eexists (rev (trace w1) ++ [_; _])%list. split; cycle 1.
    + by rewrite <- !app_assoc.
    + apply gate_trace_silent; [done|]. by repeat apply List.Forall_cons.
Qed.

(** Both halves at work: 201 with a payload that is no object, and 404
    with a payload its schema accepts. *)
Lemma status_code_override_witness :
  sends (fst (handler (createHandler (Scenario.answering 201 (JStr "x")))
                Scenario.emptyRequest Express.res_object Scenario.blank))
    (Int 400)
    {| Envelope.success := JBool false;
       Envelope.message := "Response validation failed.";
       Envelope.data := JNull;
       Envelope.error := JObj [("_errors", JArr [JStr "Expected object"])] |}
  /\
  sends (fst (handler (createHandler (Scenario.answering 404 Scenario.one))
                Scenario.emptyRequest Express.res_object Scenario.blank))
    (Int 404)
    {| Envelope.success := JBool true;
       Envelope.message := "Failed.";
       Envelope.data := Scenario.one;
       Envelope.error := JNull |}.
Proof.
  split.
  - apply (proj1 (status_code_override (Scenario.answering 201 (JStr "x"))
                    Scenario.emptyRequest Express.res_object Scenario.blank
                    (Scenario.plainArgs Scenario.emptyRequest None) 201 (JStr "x") Scenario.idNumber
                    ltac:(vm_compute; left; reflexivity) eq_refl)
             {| Zod.format := JObj [("_errors", JArr [JStr "Expected object"])] |});
      [lia | reflexivity].
  - apply (proj2 (status_code_override (Scenario.answering 404 Scenario.one)
                    Scenario.emptyRequest Express.res_object Scenario.blank
                    (Scenario.plainArgs Scenario.emptyRequest None) 404 Scenario.one Scenario.idNumber
                    ltac:(vm_compute; left; reflexivity) eq_refl)
             Scenario.one);
      [lia | reflexivity].
Defined.

(** C10: on a controlled route whose resolver returned the single entry
    [s: payload] with [s >= 400], when the schema declared for [s] rejects
    the payload neither override applies: the envelope is sent with status
    [s], success false, data null, the formatted error, and the message
    "Success.". *)
Theorem error_status_invalid_payload (options : HandlerOptions false) req res shared
    args (s : Z) (payload : JsVal) (sch : Zod.ZodType) (e : Zod.ZodError) :
  In (CallResolver args (inr (Controlled [(s, payload)])))
     (fst (handler (createHandler options) req res shared)) ->
  getSchema (response options) (Int s) = Some sch ->
  (400 <= s)%Z ->
  Zod.safeParse sch payload = inr (Zod.SafeParseError e) ->
  sends (fst (handler (createHandler options) req res shared)) (Int s)
    {| Envelope.success := JBool false;
       Envelope.message := "Success.";
       Envelope.data := JNull;
       Envelope.error := Zod.format e |}.
Proof.
  intros Hin Hsch Hs Hparse.
  destruct (controlled_resolved _ _ _ _ _ _ Hin) as (w1 & Hsilent & _ & _ & Hcb).
  rewrite handler_trace, Hcb, finish_controlled. cbn -[getEntry].
  rewrite Hsch, getEntry_first, Hparse. exec.
  destruct (Z.ltb_spec s 400); [lia|]. cbn.
  eexists (rev (trace w1) ++ [_; _])%list. split; cycle 1.
  - by rewrite <- !app_assoc.
  - apply gate_trace_silent; [done|]. by repeat apply List.Forall_cons.
Qed.

(** 404 with a payload that is no object. *)
Lemma error_status_invalid_payload_witness :
  sends (fst (handler (createHandler (Scenario.answering 404 (JStr "x")))
                Scenario.emptyRequest Express.res_object Scenario.blank))
    (Int 404)
    {| Envelope.success := JBool false;
       Envelope.message := "Success.";
       Envelope.data := JNull;
       Envelope.error := JObj [("_errors", JArr [JStr "Expected object"])] |}.
Proof.
  apply (error_status_invalid_payload (Scenario.answering 404 (JStr "x"))
           Scenario.emptyRequest Express.res_object Scenario.blank
           (Scenario.plainArgs Scenario.emptyRequest None) 404 (JStr "x") Scenario.idNumber
           {| Zod.format := JObj [("_errors", JArr [JStr "Expected object"])] |}).
  - vm_compute. left. reflexivity.
  - reflexivity.
  - lia.
  - reflexivity.
Defined.

(** C3: on a controlled route, when the response schema map has no entry for
    the status code the resolver returned, the run ends with
    [next(new Error(...))]; nothing is written to the response. *)
Theorem missing_response_schema_is_an_error (options : HandlerOptions false)
    req res shared args (result : ResponseShape JsVal) :
  In (CallResolver args (inr (Controlled result)))
     (fst (handler (createHandler options) req res shared)) ->
  getSchema (response options) (firstKey result) = None ->
  forwards (fst (handler (createHandler options) req res shared))
    (Error needsResponseSchema).
Proof.
  intros Hin Hsch.
  destruct (controlled_resolved _ _ _ _ _ _ Hin) as (w1 & Hsilent & _ & _ & Hcb).
  rewrite handler_trace, Hcb, finish_controlled. cbn -[getEntry].
  rewrite Hsch. cbn.
  eexists (rev (trace w1) ++ [_])%list. split; cycle 1.
  - by rewrite <- !app_assoc.
  - apply gate_trace_silent; [done|]. by repeat apply List.Forall_cons.
Qed.

(** The resolver answers 500 and the response map declares 200, 201 and
    404. *)
Lemma missing_response_schema_is_an_error_witness :
  forwards (fst (handler (createHandler (Scenario.answering 500 Scenario.one))
                   Scenario.emptyRequest Express.res_object Scenario.blank))
    (Error needsResponseSchema).
Proof.
  apply (missing_response_schema_is_an_error (Scenario.answering 500 Scenario.one)
           Scenario.emptyRequest Express.res_object Scenario.blank
           (Scenario.plainArgs Scenario.emptyRequest None) [(500%Z, Scenario.one)]).
  - vm_compute. left. reflexivity.
  - reflexivity.
Defined.

(** C4: when the configured guard answers [pass: false], the handler calls
    the guard and then sends status 401 with the "Unauthorized." envelope
    carrying the guard's [response] as [error]; it makes no other call: no
    schema parses the request and the resolver is not called. *)
Theorem guard_refusal_sends_unauthorized {U} (options : HandlerOptions U)
    req res shared g (r : JsVal) :
  guard options = Some g ->
  g (optContext options) req
  = inr {| GuardResult.pass := false; GuardResult.response := r |} ->
  fst (handler (createHandler options) req res shared)
  = [CallGuard (optContext options) req
       (inr {| GuardResult.pass := false; GuardResult.response := r |});
     ResStatus (Int 401);
     ResSend {| Envelope.success := JBool false;
                Envelope.message := "Unauthorized.";
                Envelope.data := JNull;
                Envelope.error := r |}].
Proof.
  intros Hg Hr. rewrite handler_trace.
  unfold callback, guardStage. cbn. rewrite Hg. exec. by rewrite Hr.
Qed.

(** Scenario B: the guard answers [{pass: false, response: "no token"}]. *)
Lemma guard_refusal_sends_unauthorized_witness :
  fst (handler (createHandler Scenario.routeB) Scenario.emptyRequest
         Express.res_object Scenario.blank)
  = [CallGuard (JObj []) Scenario.emptyRequest
       (inr {| GuardResult.pass := false; GuardResult.response := JStr "no token" |});
     ResStatus (Int 401);
     ResSend {| Envelope.success := JBool false;
                Envelope.message := "Unauthorized.";
                Envelope.data := JNull;
                Envelope.error := JStr "no token" |}].
Proof.
  apply (guard_refusal_sends_unauthorized Scenario.routeB Scenario.emptyRequest
           Express.res_object Scenario.blank
           (fun _ _ => inr {| GuardResult.pass := false;
                              GuardResult.response := JStr "no token" |})
           (JStr "no token"));
    reflexivity.
Defined.

(** C8 (scenario A): a controlled route without guard and without request
    schemas, whose resolver answers [{200: {id: 1}}] and whose response map
    declares for 200 a schema accepting [{id: 1}]: the first call of the
    handler is the resolver's (no guard call, no parse of the request), then
    the payload is validated and status 200 is sent with
    [{success: true, message: "Success.", data: {id: 1}, error: null}]. *)
Theorem scenario_A (options : HandlerOptions false) req res shared (sch : Zod.ZodType) :
  guard options = None ->
  params_schema options = None ->
  query_schema options = None ->
  body_schema options = None ->
  (forall args, resolver options args = inr [(200%Z, Scenario.one)]) ->
  getSchema (response options) (Int 200) = Some sch ->
  Zod.safeParse sch Scenario.one = inr (Zod.SafeParseSuccess Scenario.one) ->
  exists args,
    fst (handler (createHandler options) req res shared)
    = [CallResolver args (inr (Controlled [(200%Z, Scenario.one)]));
       CallSafeParse (ResponseSchema (Int 200)) Scenario.one
         (inr (Zod.SafeParseSuccess Scenario.one));
       ResStatus (Int 200);
       ResSend {| Envelope.success := JBool true;
                  Envelope.message := "Success.";
                  Envelope.data := Scenario.one;
                  Envelope.error := JNull |}].
Proof.
  intros Hg Hp Hq Hb Hr Hsch Hparse. eexists.
  rewrite handler_trace.
  unfold callback, guardStage, requestValidationStage, resolverStage. cbn.
  rewrite Hg, Hp, Hq, Hb. exec. rewrite Hr. cbn.
  unfold resolverValidationStage. exec. rewrite Hsch. cbn. rewrite Hparse.
  reflexivity.
Qed.

(** Scenario A on [routeA]. *)
Lemma scenario_A_witness :
  exists args,
    fst (handler (createHandler Scenario.routeA) Scenario.emptyRequest
           Express.res_object Scenario.blank)
    = [CallResolver args (inr (Controlled [(200%Z, Scenario.one)]));
       CallSafeParse (ResponseSchema (Int 200)) Scenario.one
         (inr (Zod.SafeParseSuccess Scenario.one));
       ResStatus (Int 200);
       ResSend {| Envelope.success := JBool true;
                  Envelope.message := "Success.";
                  Envelope.data := Scenario.one;
                  Envelope.error := JNull |}].
Proof.
  apply (scenario_A Scenario.routeA Scenario.emptyRequest Express.res_object
           Scenario.blank Scenario.idNumber);
    reflexivity.
Defined.

(** ** Uncontrolled resolvers *)

(** On an uncontrolled route the resolver is called after stages 1 and 2,
    and what it does completes the callback. *)
Lemma uncontrolled_resolved (options : HandlerOptions true) req res shared args r :
  In (CallResolver args r) (fst (handler (createHandler options) req res shared)) ->
  exists w1,
    Forall gateEvent (trace w1)
    /\ tailFields (store w1) = tailFields shared
    /\ r = outcome Uncontrolled (resolver options args)
    /\ callback options req res {| store := shared; trace := [] |}
       = (match resolver options args with
          | inl e => Throw e
          | inr v => Return (ResolverValue v)
          end,
          {| store := store w1; trace := CallResolver args r :: trace w1 |}).
Proof.
  intros Hin. apply resolver_call_in_callback in Hin; [|done].
  destruct (resolver_reached options req res {| store := shared; trace := [] |}
              (CallResolver args r) (List.Forall_nil _) I Hin)
    as (w1 & d & Hgate & Hd & HP & Hf).
  rewrite app_nil_r in Hd. cbn in Hd, Hf.
  exists w1. rewrite Hd. split; [done|]. split; [done|].
  rewrite callback_stages in Hin |- *.
  unfold bind at 1 in Hin. unfold bind at 1.
  rewrite Hgate in Hin |- *.
  unfold resolverStage in Hin |- *. cbn in Hin |- *.
  unfold bind at 1, get in Hin. unfold bind at 1, get. cbn in Hin |- *.
  set (a := {| ResolverArgs.ctx := _ |}) in *.
  assert (Hcall :
    CallResolver a (outcome Uncontrolled (resolver options a)) = CallResolver args r).
  { destruct (resolver options a) as [e|v] eqn:Hr; exec in Hin.
    all: rewrite Hd in Hin; destruct Hin as [Hin | Hin]; [done|].
    all: rewrite Forall_forall in HP; by apply list_elem_of_In, HP in Hin. }
  simplify_eq. split; [done|].
  exec. by destruct (resolver options _).
Qed.

(** C7: on an uncontrolled route, a resolver that was called and returned
    [v] ends the run: the calls made are those of the guard and of the
    request schemas followed by the resolver's, the callback returns [v]
    itself, the fields [resolverResult], [resolverValidation] and
    [responseInit] of the context are as they were found, and no
    [res.status], [res.send] or [next] follows.  The [response] map is not
    consulted: whatever it is, even absent, the run is the same. *)
Theorem uncontrolled_resolver_takes_over (options : HandlerOptions true)
    req res shared args (v : JsVal) :
  In (CallResolver args (inr (Uncontrolled v)))
     (fst (handler (createHandler options) req res shared)) ->
  (exists pre,
      Forall gateEvent pre /\
      fst (handler (createHandler options) req res shared)
      = (pre ++ [CallResolver args (inr (Uncontrolled v))])%list)
  /\ fst (callback options req res {| store := shared; trace := [] |})
     = Return (ResolverValue v)
  /\ tailFields (snd (handler (createHandler options) req res shared))
     = tailFields shared
  /\ forall response',
       handler (createHandler (withResponse response' options)) req res shared
       = handler (createHandler options) req res shared.
Proof.
  intros Hin.
  destruct (uncontrolled_resolved _ _ _ _ _ _ Hin) as (w1 & Hgate & Hf & Hr & Hcb).
  destruct (resolver options args) as [e|v'] eqn:Hres; cbn in Hr; simplify_eq.
  split; [|split; [|split]].
  - exists (rev (trace w1)). split; [by apply Forall_rev|].
    by rewrite handler_trace, Hcb.
  - by rewrite Hcb.
  - rewrite handler_store, Hcb. cbn. unfold tailFields. congruence.
  - intros response'. cbn.
    assert (callback (withResponse response' options) req res
              {| store := shared; trace := [] |}
            = callback options req res {| store := shared; trace := [] |}) as ->; [|done].
    rewrite !callback_stages.
    change (gate (withResponse response' options) req) with (gate options req).
    unfold bind at 1 3.
    destruct (gate_spec options req {| store := shared; trace := [] |}) as (_ & _ & Hl).
    destruct (gate options req _) as [[l|?|?] w]; [|done..].
    destruct Hl as [-> | [-> | ->]]; try reflexivity.
    unfold resolverStage. exec.
    change (mergedContext (withResponse response' options))
      with (mergedContext options).
    set (a := {| ResolverArgs.ctx := _ |}).
    by destruct (resolver options a).
Qed.

(** Scenario D: no [response] is declared and the resolver answers on its
    own. *)
Lemma uncontrolled_resolver_takes_over_witness :
  (exists pre,
      Forall gateEvent pre /\
      fst (handler (createHandler Scenario.routeD) Scenario.emptyRequest
             Express.res_object Scenario.blank)
      = (pre ++ [CallResolver (Scenario.plainArgs Scenario.emptyRequest (Some Express.res_object))
                   (inr (Uncontrolled (JStr "sent by the resolver")))])%list)
  /\ fst (callback Scenario.routeD Scenario.emptyRequest Express.res_object
            {| store := Scenario.blank; trace := [] |})
     = Return (ResolverValue (JStr "sent by the resolver"))
  /\ tailFields (snd (handler (createHandler Scenario.routeD) Scenario.emptyRequest
                        Express.res_object Scenario.blank))
     = tailFields Scenario.blank
  /\ forall response',
       handler (createHandler (withResponse response' Scenario.routeD))
         Scenario.emptyRequest Express.res_object Scenario.blank
       = handler (createHandler Scenario.routeD) Scenario.emptyRequest
           Express.res_object Scenario.blank.
Proof.
  apply (uncontrolled_resolver_takes_over Scenario.routeD Scenario.emptyRequest
           Express.res_object Scenario.blank
           (Scenario.plainArgs Scenario.emptyRequest (Some Express.res_object))
           (JStr "sent by the resolver")).
  vm_compute. left. reflexivity.
Defined.

(** ** Failures *)

Lemma safe_ret {A} (a : A) : safe (ret a).
Proof. by intros w Hw. Qed.

Lemma safe_throw {A} e : safe (@throw A e).
Proof. intros w Hw. by left. Qed.

Lemma safe_return {A} v : safe (@return_ A v).
Proof. by intros w Hw. Qed.

Lemma safe_get : safe get.
Proof. by intros w Hw. Qed.

Lemma safe_modify g : safe (modify g).
Proof. by intros w Hw. Qed.

Lemma safe_emit ev : quiet ev -> safe (emit ev).
Proof. intros Hev w Hw. by apply List.Forall_cons. Qed.

Lemma safe_prop {A} (o : option A) p : safe (prop o p).
Proof. destruct o; [apply safe_ret | apply safe_throw]. Qed.

Lemma safe_bind {A B} (m : M A) (k : A -> M B) :
  safe m -> (forall a, safe (k a)) -> safe (bind m k).
Proof.
  intros Hm Hk w Hw. specialize (Hm w Hw). unfold bind.
  destruct (m w) as [[a|v|e] w']; [by apply Hk | done..].
Qed.

Lemma safe_await {A} (ev : JsError + A -> Event) r :
  (forall e, failure (ev (inl e)) = Some e) ->
  (forall a, quiet (ev (inr a))) ->
  safe (await ev r).
Proof.
  intros Hfail Hquiet w Hw. unfold await. exec.
  destruct r as [e|a]; cbn.
  - right. by exists (ev (inl e)), (trace w).
  - by apply List.Forall_cons.
Qed.

Ltac safe_step :=
  lazymatch goal with
  | |- safe (await _ _) => apply safe_await; [by intros ?|by intros ?]
  | |- safe (bind _ _) => apply safe_bind; [|intros ?]
  | |- safe (ret _) => apply safe_ret
  | |- safe (throw _) => apply safe_throw
  | |- safe (return_ _) => apply safe_return
  | |- safe get => apply safe_get
  | |- safe (modify _) => apply safe_modify
  | |- safe (prop _ _) => apply safe_prop
  | |- safe (emit _) => apply safe_emit; done
  | |- safe _ => case_match
  end.

Ltac safe_auto := repeat safe_step.

Lemma callback_safe {U} (options : HandlerOptions U) req res :
  safe (callback options req res).
Proof.
  unfold callback.
  apply safe_bind; [unfold guardStage; safe_auto|]. intros l1.
  apply safe_bind; [unfold requestValidationStage, parseInto; safe_auto|]. intros l2.
  apply safe_bind.
  { unfold resolverStage. case_match; [|safe_auto].
    apply safe_bind; [safe_auto|]. intros c.
    destruct U; cbn; safe_auto. }
  intros l3.
  apply safe_bind; [unfold resolverValidationStage; safe_auto|]. intros l4.
  apply safe_bind.
  { unfold sendResponseStage, formatUnlessSuccess. destruct l4 as [p c]. cbn.
    repeat case_match; safe_auto. }
  intros _. unfold respond. safe_auto.
Qed.

Lemma quiet_not_failed ev e : quiet ev -> failure ev <> Some e.
Proof. intros [H _]. by rewrite H. Qed.

Lemma quiet_not_next ev e : quiet ev -> ev <> CallNext e.
Proof. intros [_ H] ->. done. Qed.

(** C6: failures end at [next], once.  (a) When a call of the guard, of a
    schema or of the resolver throws or rejects with [e], it is the last
    call the handler makes before [next(e)], and every earlier call
    succeeded; (b) whatever the callback throws, in any stage, is given to
    [next], which is the handler's final call and its only call of [next];
    (c) [next] is called with nothing but what the callback threw. The
    handler itself is a total function of the request and the context. *)
Theorem failures_are_forwarded_once {U} (options : HandlerOptions U) req res shared :
  (forall ev e,
      In ev (fst (handler (createHandler options) req res shared)) ->
      failure ev = Some e ->
      exists pre,
        Forall quiet pre /\
        fst (handler (createHandler options) req res shared)
        = (pre ++ [ev; CallNext e])%list)
  /\ (forall e,
        fst (callback options req res {| store := shared; trace := [] |}) = Throw e ->
        exists pre,
          Forall (fun ev => forall e', ev <> CallNext e') pre /\
          fst (handler (createHandler options) req res shared)
          = (pre ++ [CallNext e])%list)
  /\ (forall e,
        In (CallNext e) (fst (handler (createHandler options) req res shared)) ->
        fst (callback options req res {| store := shared; trace := [] |}) = Throw e).
Proof.
  rewrite handler_trace.
  pose proof (callback_safe options req res {| store := shared; trace := [] |}
                (List.Forall_nil _)) as Hsafe.
  unfold orderly in Hsafe. cbn zeta.
  destruct (callback options req res _) as [[[]|v|e0] w]; cbn in Hsafe |- *.
  1,2: apply Forall_rev in Hsafe.
  1,2: split; [|split]; [|done|].
  1,3: intros ev e Hin Hev; rewrite Forall_forall in Hsafe;
       apply list_elem_of_In, Hsafe in Hin; by apply quiet_not_failed in Hev.
  1,2: intros e Hin; rewrite Forall_forall in Hsafe;
       apply list_elem_of_In, Hsafe in Hin; by apply (quiet_not_next _ e) in Hin.
  destruct Hsafe as [Hq | (ev0 & pre0 & -> & Hev0 & Hq)];
    apply Forall_rev in Hq; rewrite Forall_forall in Hq.
  - split; [|split].
    + intros ev e Hin Hev. apply in_app_or in Hin as [Hin | [<- | []]]; [|done].
      apply list_elem_of_In, Hq in Hin. by apply quiet_not_failed in Hev.
    + intros e [= ->]. exists (rev (trace w)). split; [|done].
      apply Forall_forall. intros ev Hin e'. by apply quiet_not_next, Hq.
    + intros e Hin. apply in_app_or in Hin as [Hin | [[= ->] | []]]; [|done].
      apply list_elem_of_In, Hq in Hin. by apply (quiet_not_next _ e) in Hin.
  - cbn. rewrite <- !app_assoc. cbn. split; [|split].
    + intros ev e Hin Hev.
      apply in_app_or in Hin as [Hin | [<- | [<- | []]]]; [| |done].
      * apply list_elem_of_In, Hq in Hin. by apply quiet_not_failed in Hev.
      * assert (e = e0) as -> by congruence.
        exists (rev pre0). split; [by apply Forall_forall | done].
    + intros e [= ->]. exists (rev pre0 ++ [ev0])%list. split.
      * apply Forall_app. split.
        { apply Forall_forall. intros ev Hin e'. by apply quiet_not_next, Hq. }
        apply List.Forall_cons; [|done]. intros e' ->. done.
      * by rewrite <- app_assoc.
    + intros e Hin.
      apply in_app_or in Hin as [Hin | [-> | [[= ->] | []]]]; [|done..].
      apply list_elem_of_In, Hq in Hin. by apply (quiet_not_next _ e) in Hin.
Qed.

(** A guard that rejects, a schema that throws and a resolver that
    throws. *)
Lemma failures_are_forwarded_once_witness :
  (exists pre,
      Forall quiet pre /\
      fst (handler (createHandler Scenario.guardThrows) Scenario.emptyRequest
             Express.res_object Scenario.blank)
      = (pre ++ [CallGuard (JObj []) Scenario.emptyRequest (inl (Error "guard rejected"));
                 CallNext (Error "guard rejected")])%list)
  /\
  (exists pre,
      Forall quiet pre /\
      fst (handler (createHandler Scenario.validatorThrows) Scenario.emptyRequest
             Express.res_object Scenario.blank)
      = (pre ++ [CallSafeParse BodySchema (JObj []) (inl (Error "refinement threw"));
                 CallNext (Error "refinement threw")])%list)
  /\
  (exists pre,
      Forall quiet pre /\
      fst (handler (createHandler Scenario.resolverThrows) Scenario.emptyRequest
             Express.res_object Scenario.blank)
      = (pre ++ [CallResolver (Scenario.plainArgs Scenario.emptyRequest None)
                   (inl (Error "database is down"));
                 CallNext (Error "database is down")])%list).
Proof.
  split; [|split].
  - apply (proj1 (failures_are_forwarded_once Scenario.guardThrows Scenario.emptyRequest
                    Express.res_object Scenario.blank)).
    + vm_compute. left. reflexivity.
    + reflexivity.
  - apply (proj1 (failures_are_forwarded_once Scenario.validatorThrows
                    Scenario.emptyRequest Express.res_object Scenario.blank)).
    + vm_compute. left. reflexivity.
    + reflexivity.
  - apply (proj1 (failures_are_forwarded_once Scenario.resolverThrows Scenario.emptyRequest
                    Express.res_object Scenario.blank)).
    + vm_compute. left. reflexivity.
    + reflexivity.
Defined.

(** ** Running the same request again *)

Lemma set_guardResult_id c v : guardResult c = v -> set_guardResult v c = c.
Proof. destruct c. cbn. by intros ->. Qed.

(** Stage 1 run again on a context that already holds its result: the same
    completion and calls, and the context is left as found. *)
Lemma guardStage_replay {U} (options : HandlerOptions U) req w w2 :
  trace w2 = trace w ->
  guardResult (store w2) = guardResult (store (snd (guardStage options req start w))) ->
  guardStage options req start w2
  = (fst (guardStage options req start w),
     {| store := store w2; trace := trace (snd (guardStage options req start w)) |}).
Proof.
  intros Ht. unfold guardStage. cbn. destruct w2 as [s2 t2]. cbn in Ht. subst t2.
  destruct (guard options) as [g|]; exec; [|done].
  destruct (g (optContext options) req) as [e|gr]; cbn; [done|].
  intros H. by rewrite set_guardResult_id.
Qed.

Lemma requestValidationStage_replay {U} (options : HandlerOptions U) req l w w2 :
  trace w2 = trace w ->
  validationFields (store w2)
  = validationFields (store (snd (requestValidationStage options req l w))) ->
  requestValidationStage options req l w2
  = (fst (requestValidationStage options req l w),
     {| store := store w2;
        trace := trace (snd (requestValidationStage options req l w)) |}).
Proof.
  intros Ht. unfold requestValidationStage, parseInto, validationFields.
  destruct w2 as [[g2 p2 q2 b2 rv2 rr2 rvl2 ri2] t2]. cbn in Ht. subst t2.
  destruct (String.eqb _ _); [|done].
  destruct (params_schema options) as [sp|], (query_schema options) as [sq|],
    (body_schema options) as [sb|]; exec.
  all: repeat match goal with
         | |- context [Zod.safeParse ?s ?i] =>
             destruct (Zod.safeParse s i) as [?|?]; cbn
         end.
  all: intros H; simplify_eq; reflexivity.
Qed.

Lemma requestValidationStage_keeps_guard {U} (options : HandlerOptions U) req l :
  spec (fun _ => True) guardResult (fun _ => True)
    (requestValidationStage options req l).
Proof. unfold requestValidationStage, parseInto. spec_auto. Qed.

Lemma guardStage_keeps_validation {U} (options : HandlerOptions U) req :
  spec (fun _ => True) validationFields (fun _ => True)
    (guardStage options req start).
Proof. unfold guardStage. spec_auto. Qed.

(** After stage 1 passed, stage 2 leaves through request validation. *)
Lemma requestValidationStage_yields {U} (options : HandlerOptions U) req :
  spec (fun _ => True) (fun _ => tt)
    (fun l => l = validationFailed \/ l = toResolver)
    (requestValidationStage options req
       {| prevStep := "guard"; currentStep := "request_validation" |}).
Proof. unfold requestValidationStage, parseInto. cbn. spec_auto. Qed.

Lemma gate_replay {U} (options : HandlerOptions U) req w w2 :
  trace w2 = trace w ->
  gateFields (store w2) = gateFields (store (snd (gate options req w))) ->
  gate options req w2
  = (fst (gate options req w),
     {| store := store w2; trace := trace (snd (gate options req w)) |}).
Proof.
  intros Ht H. unfold gate, bind in *.
  pose proof (guardStage_replay options req w w2 Ht) as H1.
  destruct (guardStage options req start w) as [[l1|v|e] w1] eqn:E1; cbn in *.
  - destruct (requestValidationStage_keeps_guard options req l1 w1) as (_ & Hg & _).
    pose proof (requestValidationStage_replay options req l1 w1
                  {| store := store w2; trace := trace w1 |} eq_refl) as H2.
    destruct (requestValidationStage options req l1 w1) as [c w'] eqn:E2; cbn in *.
    unfold gateFields, validationFields in *. simplify_eq.
    rewrite H1 by congruence. rewrite H2 by congruence. done.
  - unfold gateFields in H. simplify_eq. by rewrite H1.
  - unfold gateFields in H. simplify_eq. by rewrite H1.
Qed.

(** A refusal by the guard is recorded in the context. *)
Lemma gate_guardFailed {U} (options : HandlerOptions U) req w :
  fst (gate options req w) = Normal guardFailed ->
  exists r,
    guardResult (store (snd (gate options req w)))
    = Some {| GuardResult.pass := false; GuardResult.response := r |}.
Proof.
  unfold gate, bind.
  destruct (guardStage options req start w) as [[l1|v|e] w1] eqn:E1; [|done..].
  unfold guardStage in E1. cbn in E1.
  destruct (guard options) as [g|]; exec in E1.
  - destruct (g (optContext options) req) as [e|[[] r]]; cbn in E1; simplify_eq.
    + destruct (requestValidationStage_yields options req
                  {| store := set_guardResult
                                (Some {| GuardResult.pass := true;
                                         GuardResult.response := r |}) (store w);
                     trace := CallGuard (optContext options) req
                                (inr {| GuardResult.pass := true;
                                        GuardResult.response := r |}) :: trace w |})
        as (_ & _ & Hl).
      intros Heq. rewrite Heq in Hl. by destruct Hl.
    + intros _. by exists r.
  - simplify_eq.
    destruct (requestValidationStage_yields options req w1) as (_ & _ & Hl).
    intros Heq. rewrite Heq in Hl. by destruct Hl.
Qed.

Lemma formatUnlessSuccess_pure v w : formatUnlessSuccess v w = (formatted v, w).
Proof.
  unfold formatUnlessSuccess, formatted.
  destruct (strictEqBool _ _); [done|].
  destruct v as [o|]; [|done]. exec. by destruct (Validation.error o).
Qed.

(** Stages 3 to 5 and the send read, of what they did not write
    themselves, the guard's result and the request validation response. *)
Lemma tail_replay {U} (options : HandlerOptions U) req res l w w2 :
  gateDone l ->
  (l = guardFailed ->
   exists r, guardResult (store w)
             = Some {| GuardResult.pass := false; GuardResult.response := r |}) ->
  trace w2 = trace w ->
  guardResult (store w2) = guardResult (store w) ->
  RequestValidation.response (requestValidation (store w2))
  = RequestValidation.response (requestValidation (store w)) ->
  let run := bind (resolverStage options req res l) (finish options) in
  fst (run w2) = fst (run w) /\ trace (snd (run w2)) = trace (snd (run w)).
Proof.
  intros Hl Hguard Ht Hg Hrv. cbn zeta.
  destruct w2 as [s2 t2]. cbn in Ht, Hg, Hrv. subst t2.
  destruct Hl as [-> | [-> | ->]].
  - destruct (Hguard eq_refl) as [r Hr]. rewrite Hr in Hg.
    unfold resolverStage, finish, resolverValidationStage, sendResponseStage, respond.
    exec. rewrite Hg, Hr. done.
  - unfold resolverStage, finish, resolverValidationStage, sendResponseStage, respond.
    unfold bind, get, modify, emit, ret, return_. cbn -[formatUnlessSuccess].
    rewrite Hrv.
    rewrite !formatUnlessSuccess_pure.
    destruct (formatted (RequestValidation.params _)) as [?|?|?]; [|done..].
    cbn -[formatUnlessSuccess]. rewrite ?formatUnlessSuccess_pure.
    destruct (formatted (RequestValidation.query _)) as [?|?|?]; [|done..].
    cbn -[formatUnlessSuccess]. rewrite ?formatUnlessSuccess_pure.
    destruct (formatted (RequestValidation.body _)) as [?|?|?]; done.
  - unfold resolverStage, mergedContext. exec. rewrite Hrv.
    set (ctx := {| spread := _ |}).
    destruct U; exec.
    + set (a := {| ResolverArgs.ctx := _ |}). by destruct (resolver options a).
    + set (a := {| ResolverArgs.ctx := _ |}).
      destruct (resolver options a) as [e|result]; cbn; [done|].
      rewrite !finish_controlled. cbn.
      destruct (getSchema _ _) as [sch|]; [|done].
      destruct (Zod.safeParse sch _) as [e|[d|e]]; [done|..].
      all: unfold sendResponseStage, respond, bind, get, modify, emit, ret, return_, prop.
      all: cbn -[num_lt num_ge firstKey].
      all: repeat match goal with
             | |- context [num_lt ?x ?y] => destruct (num_lt x y)
             | |- context [num_ge ?x ?y] => destruct (num_ge x y)
             end; done.
Qed.

Lemma tail_keeps_gate {U} (options : HandlerOptions U) req res l w :
  gateFields (store (snd (bind (resolverStage options req res l) (finish options) w)))
  = gateFields (store w).
Proof.
  unfold bind.
  destruct (resolverStage_spec options req res l w) as (_ & H1 & _).
  destruct (resolverStage options req res l w) as [[l'|?|?] w']; cbn in *; [|done..].
  destruct (finish_spec options l' w') as (_ & H2 & _). congruence.
Qed.

(** The callback run again on the context it left. *)
Lemma callback_replay {U} (options : HandlerOptions U) req res shared :
  let r := callback options req res {| store := shared; trace := [] |} in
  let r2 := callback options req res {| store := store (snd r); trace := [] |} in
  fst r2 = fst r /\ trace (snd r2) = trace (snd r).
Proof.
  cbn zeta. set (w0 := {| store := shared; trace := [] |}).
  pose proof (callback_stages options req res w0) as Hcb0. unfold bind at 1 in Hcb0.
  destruct (gate_spec options req w0) as (_ & _ & Hl).
  pose proof (gate_guardFailed options req w0) as Hgf.
  pose proof (gate_replay options req w0) as Hrep.
  destruct (gate options req w0) as [[l|v|e] w1]; cbn in Hl, Hgf, Hrep; rewrite Hcb0.
  - pose proof (tail_keeps_gate options req res l w1) as Hs1.
    set (s1 := store (snd (bind (resolverStage options req res l) (finish options) w1))) in *.
    specialize (Hrep {| store := s1; trace := [] |} eq_refl Hs1).
    pose proof (callback_stages options req res {| store := s1; trace := [] |}) as Hcb1.
    unfold bind at 1 in Hcb1. rewrite Hrep in Hcb1. rewrite Hcb1.
    apply tail_replay; [done| |done|..].
    + intros ->. auto.
    + unfold gateFields in Hs1. by injection Hs1.
    + unfold gateFields in Hs1. injection Hs1 as _ _ _ _ Hrv. cbn. by rewrite Hrv.
  - specialize (Hrep {| store := store w1; trace := [] |} eq_refl eq_refl).
    pose proof (callback_stages options req res {| store := store w1; trace := [] |})
      as Hcb1.
    unfold bind at 1 in Hcb1. rewrite Hrep in Hcb1. cbn [fst snd]. by rewrite Hcb1.
  - specialize (Hrep {| store := store w1; trace := [] |} eq_refl eq_refl).
    pose proof (callback_stages options req res {| store := store w1; trace := [] |})
      as Hcb1.
    unfold bind at 1 in Hcb1. rewrite Hrep in Hcb1. cbn [fst snd]. by rewrite Hcb1.
Qed.

(** C9: idempotence.  Called a second time for the same request, on the
    context object as the first call left it, a handler makes the same
    calls with the same arguments and results, hence sets the same status
    code and sends the same envelope (or gives the same error to [next]). *)
Theorem handler_idempotent {U} (options : HandlerOptions U) req res shared :
  fst (handler (createHandler options) req res
         (snd (handler (createHandler options) req res shared)))
  = fst (handler (createHandler options) req res shared).
Proof.
  rewrite handler_store, !handler_trace. cbn zeta.
  by destruct (callback_replay options req res shared) as [-> ->].
Qed.

(** ** The context object outlives the request *)

(** C1: the scratch context is not fresh per request.  Route [routeAll]
    validates params, query and body; route [routeC] declares a body
    schema only.  After [routeAll] has refused a request for its params,
    the next request, a valid one for [routeC], is refused too, with the
    first request's params error in its envelope; after a first request
    that [routeAll] accepted, the same second request is answered 200 (and
    its resolver is handed the first request's params).  This holds
    whatever the context held before the first request. *)
Theorem scratch_context_is_shared (shared : Context) (res : Express.Response) :
  fst (handler (createHandler Scenario.routeC) Scenario.fullRequest res
         (snd (handler (createHandler Scenario.routeAll)
                 Scenario.badParamsRequest res shared)))
  = [CallSafeParse BodySchema (Express.body Scenario.fullRequest)
       (inr (Zod.SafeParseSuccess (JObj [("name", JStr "turtle")])));
     ResStatus (Int 400);
     ResSend {| Envelope.success := JBool false;
                Envelope.message := "Validation Failed.";
                Envelope.data := JNull;
                Envelope.error :=
                  JObj [("params", Zod.format (Scenario.issue "id" "Required"));
                        ("query", JNull);
                        ("body", JNull)] |}]
  /\
  fst (handler (createHandler Scenario.routeC) Scenario.fullRequest res
         (snd (handler (createHandler Scenario.routeAll)
                 Scenario.fullRequest res shared)))
  = [CallSafeParse BodySchema (Express.body Scenario.fullRequest)
       (inr (Zod.SafeParseSuccess (JObj [("name", JStr "turtle")])));
     CallResolver
       {| ResolverArgs.ctx :=
            {| spread := JObj [];
               params := JObj [("id", JNum 7)];
               query := JObj [("name", JStr "turtle")];
               body := JObj [("name", JStr "turtle")] |};
          ResolverArgs.req := Scenario.fullRequest;
          ResolverArgs.res := None |}
       (inr (Controlled [(200%Z, Scenario.one)]));
     CallSafeParse (ResponseSchema (Int 200)) Scenario.one
       (inr (Zod.SafeParseSuccess Scenario.one));
     ResStatus (Int 200);
     ResSend {| Envelope.success := JBool true;
                Envelope.message := "Success.";
                Envelope.data := Scenario.one;
                Envelope.error := JNull |}].
Proof. split; reflexivity. Qed.

(** C5: a field that is not configured is reported with an error.  Route
    [routeC] has no params schema; its request has an empty body.  Run
    after [routeAll] refused another request for its params, the handler
    sends 400 "Validation Failed." with the body's error and, under
    [params], the other request's error instead of [null]. *)
Theorem unconfigured_field_reports_stale_error (shared : Context)
    (res : Express.Response) :
  params_schema Scenario.routeC = None /\
  fst (handler (createHandler Scenario.routeC) Scenario.emptyRequest res
         (snd (handler (createHandler Scenario.routeAll)
                 Scenario.badParamsRequest res shared)))
  = [CallSafeParse BodySchema (JObj [])
       (inr (Zod.SafeParseError (Scenario.issue "name" "Required")));
     ResStatus (Int 400);
     ResSend {| Envelope.success := JBool false;
                Envelope.message := "Validation Failed.";
                Envelope.data := JNull;
                Envelope.error :=
                  JObj [("params", Zod.format (Scenario.issue "id" "Required"));
                        ("query", JNull);
                        ("body", Zod.format (Scenario.issue "name" "Required"))] |}].
Proof. split; reflexivity. Qed.

(** ** Request validation on a context whose other slots are clean *)

Ltac solve_sends :=
  unfold sends;
  first [ exists []; split; [|reflexivity]
        | eexists [_]; split; cycle 1; [reflexivity|]
        | eexists [_; _]; split; cycle 1; [reflexivity|]
        | eexists [_; _; _]; split; cycle 1; [reflexivity|]
        | eexists [_; _; _; _]; split; cycle 1; [reflexivity|] ];
  repeat apply List.Forall_cons; done.

(** X1: when the guard lets the request through, every configured schema
    returns, at least one of them fails, and the slots of the fields
    without schema hold a success, the handler sends 400 "Validation
    Failed." with, per field, [null] if it passed or has no schema and its
    formatted error if it failed. *)
Theorem request_validation_failure_envelope {U} (options : HandlerOptions U)
    req res shared (op oq ob : FieldOutcome) :
  guardLetsThrough options req ->
  fieldOutcome (params_schema options) (Express.params req) (paramsValidation shared) op ->
  fieldOutcome (query_schema options) (Express.query req) (queryValidation shared) oq ->
  fieldOutcome (body_schema options) (Express.body req) (bodyValidation shared) ob ->
  fieldFailed op || fieldFailed oq || fieldFailed ob = true ->
  sends (fst (handler (createHandler options) req res shared)) (Int 400)
    {| Envelope.success := JBool false;
       Envelope.message := "Validation Failed.";
       Envelope.data := JNull;
       Envelope.error :=
         JObj [("params", fieldError op);
               ("query", fieldError oq);
               ("body", fieldError ob)] |}.
Proof.
  unfold guardLetsThrough, fieldOutcome.
  intros Hg Hp Hq Hb Hfail. rewrite handler_trace.
  unfold callback, guardStage, requestValidationStage, parseInto, sendResponseStage,
    formatUnlessSuccess, respond.
  cbn.
  destruct (guard options) as [g|]; [destruct Hg as [r Hg]|]; exec; rewrite ?Hg; cbn.
  all: destruct (params_schema options) as [sp|], op; try contradiction.
  all: destruct (query_schema options) as [sq|], oq; try contradiction.
  all: destruct (body_schema options) as [sb|], ob; try contradiction.
  all: try discriminate Hfail.
  all: repeat (progress (cbn; rewrite ?Hp, ?Hq, ?Hb)).
  all: solve_sends.
Qed.

(** Scenario C: the body schema requires [name] and the body is [{}]. *)
Lemma request_validation_failure_envelope_witness :
  sends (fst (handler (createHandler Scenario.routeC) Scenario.emptyRequest
                Express.res_object Scenario.blank)) (Int 400)
    {| Envelope.success := JBool false;
       Envelope.message := "Validation Failed.";
       Envelope.data := JNull;
       Envelope.error :=
         JObj [("params", JNull);
               ("query", JNull);
               ("body", Zod.format (Scenario.issue "name" "Required"))] |}.
Proof.
  apply (request_validation_failure_envelope Scenario.routeC Scenario.emptyRequest
           Express.res_object Scenario.blank
           Unconfigured Unconfigured (Failed (Scenario.issue "name" "Required")));
    reflexivity.
Defined.

(** * Further properties of the pipeline *)

Lemma proceeds_ret {A} (a : A) : proceeds (ret a).
Proof. by intros w. Qed.

Lemma proceeds_throw {A} e : proceeds (@throw A e).
Proof. by intros w. Qed.

Lemma proceeds_get : proceeds get.
Proof. by intros w. Qed.

Lemma proceeds_modify g : proceeds (modify g).
Proof. by intros w. Qed.

Lemma proceeds_emit ev : proceeds (emit ev).
Proof. by intros w. Qed.

Lemma proceeds_prop {A} (o : option A) p : proceeds (prop o p).
Proof. by destruct o. Qed.

Lemma proceeds_bind {A B} (m : M A) (k : A -> M B) :
  proceeds m -> (forall a, proceeds (k a)) -> proceeds (bind m k).
Proof.
  intros Hm Hk w. specialize (Hm w). unfold bind.
  destruct (m w) as [[a|v|e] w']; [apply Hk | done..].
Qed.

Lemma proceeds_await {A} (ev : JsError + A -> Event) r : proceeds (await ev r).
Proof.
  unfold await. apply proceeds_bind; [apply proceeds_emit|].
  intros _. destruct r; [apply proceeds_throw | apply proceeds_ret].
Qed.

Ltac proceeds_step :=
  lazymatch goal with
  | |- proceeds (await _ _) => apply proceeds_await
  | |- proceeds (bind _ _) => apply proceeds_bind; [|intros ?]
  | |- proceeds (ret _) => apply proceeds_ret
  | |- proceeds (throw _) => apply proceeds_throw
  | |- proceeds get => apply proceeds_get
  | |- proceeds (modify _) => apply proceeds_modify
  | |- proceeds (prop _ _) => apply proceeds_prop
  | |- proceeds (emit _) => apply proceeds_emit
  | |- proceeds _ => case_match
  end.

(** Stages 1 and 2 have no [return]. *)
Lemma gate_proceeds {U} (options : HandlerOptions U) req : proceeds (gate options req).
Proof.
  unfold gate.
  apply proceeds_bind; [unfold guardStage; repeat proceeds_step|]. intros l.
  unfold requestValidationStage, parseInto. repeat proceeds_step.
Qed.

(** The send itself. *)
Lemma respond_run w :
  respond w
  = (Return SendValue,
     {| store := store w;
        trace :=
          ResSend {| Envelope.success := ResponseInit.success (responseInit (store w));
                     Envelope.message := ResponseInit.message (responseInit (store w));
                     Envelope.data := ResponseInit.data (responseInit (store w));
                     Envelope.error := ResponseInit.error (responseInit (store w)) |}
          :: ResStatus (ResponseInit.statusCode (responseInit (store w)))
          :: trace w |}).
Proof. reflexivity. Qed.

Lemma gate_events_silent (t : list Event) : Forall gateEvent t -> Forall silent t.
Proof. intros H. eapply Forall_impl; [done|]. apply gateEvent_silent. Qed.

Lemma formatted_proceeds v r : formatted v = Return r -> False.
Proof.
  unfold formatted. destruct (strictEqBool _ _); [done|].
  destruct v as [o|]; [|done]. by destruct (Validation.error o).
Qed.

Lemma callback_ending {U} (options : HandlerOptions U) req res shared :
  ending options (callback options req res {| store := shared; trace := [] |}).
Proof.
  set (w0 := {| store := shared; trace := [] |}).
  rewrite callback_stages. unfold bind at 1.
  destruct (gate_spec options req w0) as ([d [Hd HP]] & _ & Hl).
  pose proof (gate_proceeds options req w0) as Hnr.
  pose proof (gate_guardFailed options req w0) as Hgf.
  destruct (gate options req w0) as [[l|v|e] w1]; cbn in Hd, Hl, Hnr, Hgf; [|by destruct Hnr|].
  2: { unfold ending. cbn. rewrite Hd, app_nil_r. by apply gate_events_silent. }
  rewrite app_nil_r in Hd. subst d. apply gate_events_silent in HP as Hsilent.
  destruct Hl as [-> | [-> | ->]].
  - destruct (Hgf eq_refl) as [r Hr].
    unfold resolverStage, finish, resolverValidationStage, sendResponseStage, respond.
    exec. rewrite Hr. unfold ending. cbn.
    eexists _, _, _. split; [done|]. split; [done|].
    exists 401%Z. split; [done|]. right. done.
  - unfold resolverStage, finish, resolverValidationStage, sendResponseStage, respond.
    unfold bind, get, modify, emit, ret, return_. cbn -[formatUnlessSuccess].
    rewrite !formatUnlessSuccess_pure.
    destruct (formatted (RequestValidation.params _)) as [?|?|?] eqn:Ep;
      [|by apply formatted_proceeds in Ep|done].
    cbn -[formatUnlessSuccess].
    destruct (formatted (RequestValidation.query _)) as [?|?|?] eqn:Eq;
      [|by apply formatted_proceeds in Eq|done].
    cbn -[formatUnlessSuccess].
    destruct (formatted (RequestValidation.body _)) as [?|?|?] eqn:Eb;
      [|by apply formatted_proceeds in Eb|done].
    unfold ending. cbn.
    eexists _, _, _. split; [done|]. split; [done|].
    exists 400%Z. split; [done|]. right. done.
  - unfold resolverStage. exec.
    destruct U; exec; set (a := {| ResolverArgs.ctx := _ |}).
    + destruct (resolver options a) as [e|v]; unfold ending; cbn.
      * by apply List.Forall_cons.
      * split; [done|]. by eexists _, _.
    + destruct (resolver options a) as [e|result]; cbn.
      { unfold ending. cbn. by apply List.Forall_cons. }
      rewrite finish_controlled. cbn -[getEntry].
      destruct result as [|[s payload] rest]; cbn -[getEntry].
      { destruct (response options); unfold ending; cbn; by apply List.Forall_cons. }
      destruct (getSchema (response options) (Int s)) as [sch|];
        [|unfold ending; cbn; by apply List.Forall_cons].
      destruct (Zod.safeParse sch _) as [e|[dd|e]];
        [unfold ending; cbn; by repeat apply List.Forall_cons|..].
      all: unfold sendResponseStage, respond, bind, get, modify, emit, ret, return_, prop.
      all: cbn -[getEntry].
      all: destruct (Z.ltb_spec s 400); destruct (Z.leb_spec 400 s); try lia.
      all: unfold ending; cbn -[getEntry].
      all: eexists _, _, _; split; [done|]; split;
        [by repeat apply List.Forall_cons|].
      * exists s. split; [done|]. left. destruct (Z.ltb_spec s 400); [done|lia].
      * exists s. split; [done|]. left. destruct (Z.ltb_spec s 400); [lia|done].
      * exists 400%Z. split; [done|]. right. done.
      * exists s. split; [done|]. right. done.
Qed.

Lemma last_two_eq {A} (l1 l2 : list A) a b c d :
  (l1 ++ [a; b])%list = (l2 ++ [c; d])%list -> a = c /\ b = d.
Proof.
  change (l1 ++ [a; b])%list with (l1 ++ [a] ++ [b])%list.
  change (l2 ++ [c; d])%list with (l2 ++ [c] ++ [d])%list.
  rewrite !app_assoc. intros H.
  apply app_inj_tail in H as [H ->]. by apply app_inj_tail in H as [_ ->].
Qed.

Lemma last_one_eq {A} (l1 l2 : list A) a c d :
  (l1 ++ [a])%list = (l2 ++ [c; d])%list -> a = d.
Proof.
  change (l2 ++ [c; d])%list with (l2 ++ [c] ++ [d])%list.
  rewrite app_assoc. intros H. by apply app_inj_tail in H as [_ ->].
Qed.

(** X2: every run ends in exactly one of three ways.  Either the handler
    sets a status code and sends one envelope as its last two calls, or it
    gives an error to [next] as its last call, or (on an uncontrolled
    route only) its last call is the resolver's, which returned.  Before
    that last step nothing is written to the response and [next] is not
    called: no run sends twice, and none both sends and calls [next]. *)
Theorem run_ends_one_way {U} (options : HandlerOptions U) req res shared :
  (exists code envelope,
      sends (fst (handler (createHandler options) req res shared)) code envelope)
  \/ (exists e, forwards (fst (handler (createHandler options) req res shared)) e)
  \/ (U = true /\
      exists pre args v,
        Forall gateEvent pre /\
        fst (handler (createHandler options) req res shared)
        = (pre ++ [CallResolver args (inr (Uncontrolled v))])%list).
Proof.
  rewrite handler_trace. cbn zeta.
  pose proof (callback_ending options req res shared) as H. unfold ending in H.
  destruct (callback options req res _) as [[[]|[v|]|e] w]; cbn in H |- *; [done|..].
  - right. right. destruct H as (-> & args & pre & -> & Hpre).
    split; [done|]. exists (rev pre), args, v. split; [by apply Forall_rev | done].
  - left. destruct H as (code & envelope & pre & -> & Hpre & _).
    exists code, envelope, (rev pre). split; [by apply Forall_rev|].
    cbn. by rewrite <- app_assoc.
  - right. left. exists e, (rev (trace w)). split; [by apply Forall_rev | done].
Qed.

(** X3: the status code and the envelope that are sent agree.  The status
    is a number; with [success: true] the [error] is [null] and the
    message is "Success." below 400 and "Failed." from 400 on; with
    [success: false] the [data] is [null] and the status is at least 400.
    So no envelope carries both data and an error, and no status below 400
    comes with [success: false]. *)
Theorem sent_envelope_is_consistent {U} (options : HandlerOptions U) req res shared
    (code : JsNumber) (envelope : Envelope.t) :
  sends (fst (handler (createHandler options) req res shared)) code envelope ->
  consistent code envelope.
Proof.
  rewrite handler_trace. cbn zeta.
  pose proof (callback_ending options req res shared) as H. unfold ending in H.
  intros (pre0 & _ & Heq).
  destruct (callback options req res _) as [[[]|[v|]|e] w]; cbn in H, Heq; [done|..].
  - destruct H as (_ & args & pre & Ht & _). rewrite Ht in Heq. cbn in Heq.
    by apply last_one_eq in Heq.
  - destruct H as (code' & envelope' & pre & Ht & _ & Hc). rewrite Ht in Heq.
    cbn in Heq. rewrite <- app_assoc in Heq. cbn in Heq.
    apply last_two_eq in Heq as [[= ->] [= ->]]. done.
  - by apply last_one_eq in Heq.
Qed.

(** Scenario A sends 200 with a success envelope. *)
Lemma sent_envelope_is_consistent_witness :
  consistent (Int 200)
    {| Envelope.success := JBool true;
       Envelope.message := "Success.";
       Envelope.data := Scenario.one;
       Envelope.error := JNull |}.
Proof.
  apply (sent_envelope_is_consistent Scenario.routeA Scenario.emptyRequest
           Express.res_object Scenario.blank).
  eexists [_; _]. split; cycle 1; [reflexivity|].
  repeat apply List.Forall_cons; done.
Defined.

(** X4: the success path, and only the first entry counts.  On a
    controlled route whose resolver returned a result starting with the
    entry [s: payload], [s < 400], when the schema declared for [s] accepts
    the payload with parsed data [d], the handler sends status [s] with
    [{success: true, message: "Success.", data: d, error: null}]: the data
    is the schema's output, not the resolver's payload, and the entries
    after the first are not looked at. *)
Theorem success_envelope (options : HandlerOptions false) req res shared
    args (s : Z) (payload d : JsVal) (rest : ResponseShape JsVal) (sch : Zod.ZodType) :
  In (CallResolver args (inr (Controlled ((s, payload) :: rest))))
     (fst (handler (createHandler options) req res shared)) ->
  getSchema (response options) (Int s) = Some sch ->
  (s < 400)%Z ->
  Zod.safeParse sch payload = inr (Zod.SafeParseSuccess d) ->
  sends (fst (handler (createHandler options) req res shared)) (Int s)
    {| Envelope.success := JBool true;
       Envelope.message := "Success.";
       Envelope.data := d;
       Envelope.error := JNull |}.
Proof.
  intros Hin Hsch Hs Hparse.
  destruct (controlled_resolved _ _ _ _ _ _ Hin) as (w1 & Hsilent & _ & _ & Hcb).
  rewrite handler_trace, Hcb, finish_controlled. cbn -[getEntry].
  rewrite Hsch, getEntry_first, Hparse. exec.
  destruct (Z.ltb_spec s 400); [|lia]. destruct (Z.leb_spec 400 s); [lia|]. cbn.
  eexists (rev (trace w1) ++ [_; _])%list. split; cycle 1.
  - by rewrite <- !app_assoc.
  - apply gate_trace_silent; [done|]. by repeat apply List.Forall_cons.
Qed.

(** A result with a second entry, and a payload with a key the schema
    strips. *)
Lemma success_envelope_witness :
  sends (fst (handler
                (createHandler
                   (Scenario.answeringAll
                      [(201%Z, JObj [("id", JNum 5); ("extra", JBool true)]);
                       (404%Z, JStr "ignored")]))
                Scenario.emptyRequest Express.res_object Scenario.blank))
    (Int 201)
    {| Envelope.success := JBool true;
       Envelope.message := "Success.";
       Envelope.data := JObj [("id", JNum 5)];
       Envelope.error := JNull |}.
Proof.
  apply (success_envelope
           (Scenario.answeringAll
              [(201%Z, JObj [("id", JNum 5); ("extra", JBool true)]);
               (404%Z, JStr "ignored")])
           Scenario.emptyRequest Express.res_object Scenario.blank
           (Scenario.plainArgs Scenario.emptyRequest None) 201
           (JObj [("id", JNum 5); ("extra", JBool true)]) (JObj [("id", JNum 5)])
           [(404%Z, JStr "ignored")] Scenario.idNumber).
  - vm_compute. left. reflexivity.
  - reflexivity.
  - lia.
  - reflexivity.
Defined.

(** X5: results a controlled route cannot answer.  When the resolver
    returns an object without any entry, or the route declares no
    [response] map at all, the run ends with the error "The controlled
    resolver function needs at least one `response` schema." given to
    [next]: no schema is consulted and nothing is sent. *)
Theorem unanswerable_result_is_an_error (options : HandlerOptions false)
    req res shared args (result : ResponseShape JsVal) :
  In (CallResolver args (inr (Controlled result)))
     (fst (handler (createHandler options) req res shared)) ->
  result = [] \/ response options = None ->
  exists pre,
    Forall gateEvent pre /\
    fst (handler (createHandler options) req res shared)
    = (pre ++ [CallResolver args (inr (Controlled result));
               CallNext (Error needsResponseSchema)])%list.
Proof.
  intros Hin Hcase.
  destruct (controlled_resolved _ _ _ _ _ _ Hin) as (w1 & Hgate & _ & _ & Hcb).
  rewrite handler_trace, Hcb, finish_controlled. cbn -[getEntry].
  assert (getSchema (response options) (firstKey result) = None) as ->.
  { destruct Hcase as [-> | ->]; [by destruct (response options) | done]. }
  cbn. exists (rev (trace w1)). split; [by apply Forall_rev|].
  by rewrite <- app_assoc.
Qed.

(** An empty result under a response map, and a result without a map. *)
Lemma unanswerable_result_is_an_error_witness :
  (exists pre,
      Forall gateEvent pre /\
      fst (handler (createHandler (Scenario.answeringAll [])) Scenario.emptyRequest
             Express.res_object Scenario.blank)
      = (pre ++ [CallResolver (Scenario.plainArgs Scenario.emptyRequest None)
                   (inr (Controlled []));
                 CallNext (Error needsResponseSchema)])%list)
  /\
  (exists pre,
      Forall gateEvent pre /\
      fst (handler (createHandler (withResponse None Scenario.routeA))
             Scenario.emptyRequest Express.res_object Scenario.blank)
      = (pre ++ [CallResolver (Scenario.plainArgs Scenario.emptyRequest None)
                   (inr (Controlled [(200%Z, Scenario.one)]));
                 CallNext (Error needsResponseSchema)])%list).
Proof.
  split.
  - apply (unanswerable_result_is_an_error (Scenario.answeringAll [])
             Scenario.emptyRequest Express.res_object Scenario.blank).
    + vm_compute. left. reflexivity.
    + left. reflexivity.
  - apply (unanswerable_result_is_an_error (withResponse None Scenario.routeA)
             Scenario.emptyRequest Express.res_object Scenario.blank).
    + vm_compute. left. reflexivity.
    + right. reflexivity.
Defined.

Lemma spec_events {A X} (P P' : Event -> Prop) (f : Context -> X) (Q : A -> Prop)
    (m : M A) :
  (forall ev, P ev -> P' ev) -> spec P f Q m -> spec P' f Q m.
Proof.
  intros HP Hm w. destruct (Hm w) as ((d & Hd & Hall) & Hf & Ha).
  split; [|done]. exists d. split; [done|]. by eapply Forall_impl.
Qed.

Lemma afterGuard_spec {U} (options : HandlerOptions U) req res l :
  spec (fun ev => ~ guardCall ev) (fun _ => tt) (fun _ => True)
    (afterGuard options req res l).
Proof.
  unfold afterGuard.
  apply spec_bind; [unfold requestValidationStage, parseInto; spec_auto|]. intros l2.
  apply spec_bind.
  { unfold resolverStage. case_match; [|spec_auto].
    apply spec_bind; [spec_auto|]. intros c. destruct U; cbn; spec_auto. }
  intros l3. unfold finish.
  apply spec_bind; [unfold resolverValidationStage; spec_auto|]. intros l4.
  apply spec_bind.
  { unfold sendResponseStage, formatUnlessSuccess. destruct l4 as [p c]. cbn.
    repeat case_match; spec_auto. }
  intros _. unfold respond. spec_auto.
Qed.

Lemma callback_after_guard {U} (options : HandlerOptions U) req res w :
  callback options req res w
  = bind (guardStage options req start) (afterGuard options req res) w.
Proof. reflexivity. Qed.

(** X6: the guard runs at the start of a request, once.  On a route with a
    guard the first call of every run is the guard's, with the route's
    context (or [{}]) and the request, and the guard is not called again;
    on a route without guard it is never called. *)
Theorem guard_runs_first {U} (options : HandlerOptions U) req res shared :
  match guard options with
  | Some g =>
      exists rest,
        fst (handler (createHandler options) req res shared)
        = CallGuard (optContext options) req (g (optContext options) req) :: rest
        /\ Forall (fun ev => ~ guardCall ev) rest
  | None =>
      Forall (fun ev => ~ guardCall ev)
        (fst (handler (createHandler options) req res shared))
  end.
Proof.
  rewrite handler_trace. cbn zeta. rewrite callback_after_guard.
  unfold bind at 1, guardStage. cbn.
  destruct (guard options) as [g|]; exec.
  - destruct (g (optContext options) req) as [e|gr] eqn:Hg; cbn.
    { exists [CallNext e]. split; [done|]. apply List.Forall_cons; [by intros []|done]. }
    set (l := {| prevStep := _ |}). set (w1 := {| store := _ |}).
    destruct (afterGuard_spec options req res l w1) as ((d & Hd & HP) & _).
    exists (rev match fst (afterGuard options req res l w1) with
                | Throw e => CallNext e :: d
                | _ => d
                end).
    destruct (afterGuard options req res l w1) as [[[]|v|e] w2]; cbn in Hd |- *;
      rewrite Hd; cbn; rewrite ?rev_app_distr; cbn.
    all: split; [done|].
    all: first [ by apply Forall_rev
              | apply Forall_app; split; [by apply Forall_rev|];
                apply List.Forall_cons; [by intros []|done] ].
  - set (l := {| prevStep := _ |}). set (w1 := {| store := _ |}).
    destruct (afterGuard_spec options req res l w1) as ((d & Hd & HP) & _).
    destruct (afterGuard options req res l w1) as [[[]|v|e] w2]; cbn in Hd |- *;
      rewrite Hd, app_nil_r.
    all: cbn.
    all: first [ by apply Forall_rev
              | apply Forall_app; split; [by apply Forall_rev|];
                apply List.Forall_cons; [by intros []|done] ].
Qed.

Lemma spec_field {A X Y} (P : Event -> Prop) (f : Context -> X) (h : X -> Y)
    (Q : A -> Prop) (m : M A) :
  spec P f Q m -> spec P (fun c => h (f c)) Q m.
Proof.
  intros Hm w. destruct (Hm w) as (Hd & Hf & Ha).
  split; [done|]. split; [by rewrite Hf | done].
Qed.

(** Stage 1 and the stages after stage 2 write no validation slot. *)
Lemma guardStage_keeps_slots {U} (options : HandlerOptions U) req :
  spec (fun _ => True) slots (fun _ => True) (guardStage options req start).
Proof. unfold guardStage. spec_auto. Qed.

Lemma tail_keeps_slots {U} (options : HandlerOptions U) req res l :
  spec (fun _ => True) slots (fun _ => True)
    (bind (resolverStage options req res l) (finish options)).
Proof.
  apply spec_bind.
  { unfold resolverStage. case_match; [|spec_auto].
    apply spec_bind; [spec_auto|]. intros c. destruct U; cbn; spec_auto. }
  intros l3. unfold finish.
  apply spec_bind; [unfold resolverValidationStage; spec_auto|]. intros l4.
  apply spec_bind.
  { unfold sendResponseStage, formatUnlessSuccess. destruct l4 as [p c]. cbn.
    repeat case_match; spec_auto. }
  intros _. unfold respond. spec_auto.
Qed.

(** A slot that stage 2 keeps is kept by the whole callback. *)
Lemma callback_keeps_slot {U} (options : HandlerOptions U) req res
    (h : Validation.t * Validation.t * Validation.t -> Validation.t) :
  (forall l, spec (fun _ => True) (fun c => h (slots c)) (fun _ => True)
               (requestValidationStage options req l)) ->
  forall w, h (slots (store (snd (callback options req res w)))) = h (slots (store w)).
Proof.
  intros Hstage w.
  assert (spec (fun _ => True) (fun c => h (slots c)) (fun _ => True)
            (callback options req res)) as H.
  { unfold callback.
    apply spec_bind; [apply spec_field, guardStage_keeps_slots|]. intros l1.
    apply spec_bind; [apply Hstage|]. intros l2.
    apply (spec_field _ _ h), tail_keeps_slots. }
  by destruct (H w) as (_ & ? & _).
Qed.

(** X7: a run never resets the slot of a field it does not validate.  The
    validation result found in the context for a field without schema
    ([paramsValidation], [queryValidation] or [bodyValidation]) is still
    there, unchanged, when the run is over, however the run ends. *)
Theorem unconfigured_slots_are_kept {U} (options : HandlerOptions U) req res shared :
  (params_schema options = None ->
   paramsValidation (snd (handler (createHandler options) req res shared))
   = paramsValidation shared)
  /\ (query_schema options = None ->
      queryValidation (snd (handler (createHandler options) req res shared))
      = queryValidation shared)
  /\ (body_schema options = None ->
      bodyValidation (snd (handler (createHandler options) req res shared))
      = bodyValidation shared).
Proof.
  rewrite handler_store. split; [|split]; intros Hnone.
  - apply (callback_keeps_slot options req res (fun s => fst (fst s))).
    intros l. unfold requestValidationStage, parseInto. rewrite Hnone. spec_auto.
  - apply (callback_keeps_slot options req res (fun s => snd (fst s))).
    intros l. unfold requestValidationStage, parseInto. rewrite Hnone. spec_auto.
  - apply (callback_keeps_slot options req res (fun s => snd s)).
    intros l. unfold requestValidationStage, parseInto. rewrite Hnone. spec_auto.
Qed.

(** The failure that [routeAll] recorded for params survives a run of
    [routeC], which has no params schema. *)
Lemma unconfigured_slots_are_kept_witness :
  paramsValidation
    (snd (handler (createHandler Scenario.routeC) Scenario.fullRequest Express.res_object
            (snd (handler (createHandler Scenario.routeAll) Scenario.badParamsRequest
                    Express.res_object Scenario.blank))))
  = paramsValidation
      (snd (handler (createHandler Scenario.routeAll) Scenario.badParamsRequest
              Express.res_object Scenario.blank)).
Proof.
  apply (proj1 (unconfigured_slots_are_kept Scenario.routeC Scenario.fullRequest
                  Express.res_object
                  (snd (handler (createHandler Scenario.routeAll)
                          Scenario.badParamsRequest Express.res_object Scenario.blank)))).
  reflexivity.
Defined.

(** When stages 1 and 2 lead to the resolver, the request validation
    response holds the parsed data of every configured field. *)
Lemma gate_parsed {U} (options : HandlerOptions U) req w w1 :
  gate options req w = (Normal toResolver, w1) ->
  parsedBy (params_schema options) (Express.params req)
    (params (mergedContext options (store w1)))
  /\ parsedBy (query_schema options) (Express.query req)
       (query (mergedContext options (store w1)))
  /\ parsedBy (body_schema options) (Express.body req)
       (body (mergedContext options (store w1))).
Proof.
  unfold gate, guardStage, requestValidationStage, parseInto, mergedContext, parsedBy.
  cbn. destruct w as [[g0 p0 q0 b0 rv0 rr0 rvl0 ri0] t0].
  destruct (guard options) as [g|]; exec.
  1: destruct (g (optContext options) req) as [e|[[] r]]; cbn; [done| |done].
  all: destruct (params_schema options) as [sp|]; cbn;
    [destruct (Zod.safeParse sp _) as [e|[d|e]] eqn:Hp; cbn; [done|..]|].
  all: destruct (query_schema options) as [sq|]; cbn;
    [destruct (Zod.safeParse sq _) as [e'|[d'|e']] eqn:Hq; cbn; [done|..]|].
  all: destruct (body_schema options) as [sb|]; cbn;
    [destruct (Zod.safeParse sb _) as [e''|[d''|e'']] eqn:Hb; cbn; [done|..]|].
  all: repeat match goal with
         | |- context [strictEqBool ?x false] => destruct (strictEqBool x false); cbn
         end.
  all: intros [= <-]; cbn; done.
Qed.

(** The arguments of a call of the resolver. *)
Lemma resolver_call_args {U} (options : HandlerOptions U) req res shared args r :
  In (CallResolver args r) (fst (handler (createHandler options) req res shared)) ->
  exists w1,
    gate options req {| store := shared; trace := [] |} = (Normal toResolver, w1)
    /\ args = {| ResolverArgs.ctx := mergedContext options (store w1);
                 ResolverArgs.req := req;
                 ResolverArgs.res := if U then Some res else None |}.
Proof.
  intros Hin. apply resolver_call_in_callback in Hin; [|done].
  destruct (resolver_reached options req res {| store := shared; trace := [] |}
              (CallResolver args r) (List.Forall_nil _) I Hin)
    as (w1 & d & Hgate & Hd & HP & _).
  rewrite app_nil_r in Hd. exists w1. split; [done|].
  rewrite callback_stages in Hin. unfold bind at 1 in Hin. rewrite Hgate in Hin.
  assert (forall ev, In ev (trace w1) -> ev <> CallResolver args r) as Hgate_ev.
  { intros ev Hev ->. rewrite Hd in Hev. rewrite Forall_forall in HP.
    by apply list_elem_of_In, HP in Hev. }
  unfold resolverStage in Hin. cbn in Hin.
  unfold bind at 1, get in Hin. cbn in Hin.
  destruct U.
  - set (a := {| ResolverArgs.ctx := _ |}) in *.
    unfold bind, await, emit, return_, ret in Hin.
    destruct (resolver options a) as [e|v]; cbn in Hin.
    all: destruct Hin as [[= <- _] | Hin]; [done | by apply Hgate_ev in Hin].
  - set (a := {| ResolverArgs.ctx := _ |}) in *.
    unfold bind at 1 2, await, emit, modify in Hin. cbn in Hin.
    destruct (resolver options a) as [e|result]; exec in Hin.
    + destruct Hin as [[= <- _] | Hin]; [done | by apply Hgate_ev in Hin].
    + fold toValidation in Hin.
      destruct (finish_spec options toValidation
                  {| store := set_resolverResult result (store w1);
                     trace := CallResolver a (inr (Controlled result)) :: trace w1 |})
        as ([d' [Hd' HP']] & _).
      rewrite Hd' in Hin. cbn in Hin.
      apply in_app_or in Hin as [Hin | [[= <- _] | Hin]]; [|done|by apply Hgate_ev in Hin].
      rewrite Forall_forall in HP'. by apply list_elem_of_In, HP' in Hin.
Qed.

(** X8: what the resolver is given.  Whenever the resolver is called, it
    is called with the request itself, with the response object on an
    uncontrolled route and without it on a controlled one, and with a
    [ctx] that spreads the route's context (or [{}]) and holds, for every
    field with a schema, the data parsed by that schema from the request:
    the resolver never sees a field that its schema rejected, nor the raw
    input of a validated field. *)
Theorem resolver_is_given_parsed_data {U} (options : HandlerOptions U) req res shared
    (args : ResolverArgs.t) (r : JsError + Resolved) :
  In (CallResolver args r) (fst (handler (createHandler options) req res shared)) ->
  ResolverArgs.req args = req
  /\ ResolverArgs.res args = (if U then Some res else None)
  /\ spread (ResolverArgs.ctx args) = optContext options
  /\ parsedBy (params_schema options) (Express.params req) (params (ResolverArgs.ctx args))
  /\ parsedBy (query_schema options) (Express.query req) (query (ResolverArgs.ctx args))
  /\ parsedBy (body_schema options) (Express.body req) (body (ResolverArgs.ctx args)).
Proof.
  intros Hin. destruct (resolver_call_args _ _ _ _ _ _ Hin) as (w1 & Hgate & ->).
  cbn. repeat (split; [done|]). by apply gate_parsed in Hgate.
Qed.

(** Route [routeC] parses the body with a schema that keeps [name] only. *)
Lemma resolver_is_given_parsed_data_witness :
  ResolverArgs.req Scenario.parsedArgs = Scenario.fullRequest
  /\ ResolverArgs.res Scenario.parsedArgs = None
  /\ spread (ResolverArgs.ctx Scenario.parsedArgs) = optContext Scenario.routeC
  /\ parsedBy (params_schema Scenario.routeC) (Express.params Scenario.fullRequest)
       (params (ResolverArgs.ctx Scenario.parsedArgs))
  /\ parsedBy (query_schema Scenario.routeC) (Express.query Scenario.fullRequest)
       (query (ResolverArgs.ctx Scenario.parsedArgs))
  /\ parsedBy (body_schema Scenario.routeC) (Express.body Scenario.fullRequest)
       (body (ResolverArgs.ctx Scenario.parsedArgs)).
Proof.
  apply (resolver_is_given_parsed_data Scenario.routeC Scenario.fullRequest
           Express.res_object Scenario.blank Scenario.parsedArgs
           (inr (Controlled [(200%Z, Scenario.one)]))).
  vm_compute. right. left. reflexivity.
Defined.

(** Stages 1 and 2 on two contexts with the same inputs. *)
Lemma gate_agree {U} (options : HandlerOptions U) req w w' :
  trace w' = trace w ->
  sameInputs options (store w) (store w') ->
  fst (gate options req w') = fst (gate options req w)
  /\ trace (snd (gate options req w')) = trace (snd (gate options req w))
  /\ (fst (gate options req w) = Normal guardFailed ->
      guardResult (store (snd (gate options req w')))
      = guardResult (store (snd (gate options req w))))
  /\ (forall l, fst (gate options req w) = Normal l -> l <> guardFailed ->
      RequestValidation.response (requestValidation (store (snd (gate options req w'))))
      = RequestValidation.response (requestValidation (store (snd (gate options req w))))).
Proof.
  unfold gate, guardStage, requestValidationStage, parseInto, sameInputs.
  destruct w as [[g0 p0 q0 b0 rv0 rr0 rvl0 ri0] t0].
  destruct w' as [[g1 p1 q1 b1 rv1 rr1 rvl1 ri1] t1].
  cbn. intros -> (Hp & Hq & Hb & Hrv).
  assert (forall c (t : list Event) (P Q : Prop),
            (forall l, c = Normal l ->
               (l = guardFailed -> P) /\ (l <> guardFailed -> Q)) ->
            c = c /\ t = t /\ (c = Normal guardFailed -> P)
            /\ (forall l : Local, c = Normal l -> l <> guardFailed -> Q)) as Hshape.
  { intros c t P Q H. repeat split.
    - intros Hc. apply H in Hc as [HP _]. by apply HP.
    - intros l Hc Hne. apply H in Hc as [_ HQ]. by apply HQ. }
  destruct (guard options) as [g|]; exec.
  1: destruct (g (optContext options) req) as [e|[[] r]]; cbn;
    [by apply Hshape| |apply Hshape; by intros l [= <-]].
  all: destruct (params_schema options) as [sp|]; cbn;
    [destruct (Zod.safeParse sp _) as [e|[d|e]]; cbn; [by apply Hshape|..]|subst p1].
  all: destruct (query_schema options) as [sq|]; cbn;
    [destruct (Zod.safeParse sq _) as [e'|[d'|e']]; cbn; [by apply Hshape|..]|subst q1].
  all: destruct (body_schema options) as [sb|]; cbn;
    [destruct (Zod.safeParse sb _) as [e''|[d''|e'']]; cbn; [by apply Hshape|..]|subst b1].
  all: repeat match goal with
         | |- context [strictEqBool ?x false] => destruct (strictEqBool x false); cbn
         end.
  all: apply Hshape; intros l [= <-]; split; [done|]; intros _; cbn; by rewrite ?Hrv.
Qed.

(** Stages 3 to 5 and the send on two contexts that agree on the request
    validation response and, after a refusal by the guard, on its result. *)
Lemma tail_agree {U} (options : HandlerOptions U) req res l w w2 :
  gateDone l ->
  (l = guardFailed ->
   exists r, guardResult (store w)
             = Some {| GuardResult.pass := false; GuardResult.response := r |}) ->
  trace w2 = trace w ->
  (l = guardFailed -> guardResult (store w2) = guardResult (store w)) ->
  (l <> guardFailed ->
   RequestValidation.response (requestValidation (store w2))
   = RequestValidation.response (requestValidation (store w))) ->
  let run := bind (resolverStage options req res l) (finish options) in
  fst (run w2) = fst (run w) /\ trace (snd (run w2)) = trace (snd (run w)).
Proof.
  intros Hl Hguard Ht Hg Hrv. cbn zeta.
  destruct w2 as [s2 t2]. cbn in Ht, Hg, Hrv. subst t2.
  destruct Hl as [-> | [-> | ->]]; [|specialize (Hrv ltac:(done))..].
  - destruct (Hguard eq_refl) as [r Hr]. specialize (Hg eq_refl). rewrite Hr in Hg.
    unfold resolverStage, finish, resolverValidationStage, sendResponseStage, respond.
    exec. rewrite Hg, Hr. done.
  - unfold resolverStage, finish, resolverValidationStage, sendResponseStage, respond.
    unfold bind, get, modify, emit, ret, return_. cbn -[formatUnlessSuccess].
    rewrite Hrv.
    rewrite !formatUnlessSuccess_pure.
    destruct (formatted (RequestValidation.params _)) as [?|?|?]; [|done..].
    cbn -[formatUnlessSuccess]. rewrite ?formatUnlessSuccess_pure.
    destruct (formatted (RequestValidation.query _)) as [?|?|?]; [|done..].
    cbn -[formatUnlessSuccess]. rewrite ?formatUnlessSuccess_pure.
    destruct (formatted (RequestValidation.body _)) as [?|?|?]; done.
  - unfold resolverStage, mergedContext. exec. rewrite Hrv.
    set (ctx := {| spread := _ |}).
    destruct U; exec.
    + set (a := {| ResolverArgs.ctx := _ |}). by destruct (resolver options a).
    + set (a := {| ResolverArgs.ctx := _ |}).
      destruct (resolver options a) as [e|result]; cbn; [done|].
      rewrite !finish_controlled. cbn.
      destruct (getSchema _ _) as [sch|]; [|done].
      destruct (Zod.safeParse sch _) as [e|[d|e]]; [done|..].
      all: unfold sendResponseStage, respond, bind, get, modify, emit, ret, return_, prop.
      all: cbn -[num_lt num_ge firstKey].
      all: repeat match goal with
             | |- context [num_lt ?x ?y] => destruct (num_lt x y)
             | |- context [num_ge ?x ?y] => destruct (num_ge x y)
             end; done.
Qed.

(** X9: what a run can see of the context.  Two runs of a handler on one
    request make the same calls and send the same response whenever the
    contexts they start from agree on the validation slots of the fields
    without schema (and, on a route without any request schema, on the
    request validation response).  In particular a route that declares a
    schema for each of params, query and body behaves the same whatever
    the context holds. *)
Theorem run_reads_unconfigured_slots_only {U} (options : HandlerOptions U) req res
    (shared shared' : Context) :
  sameInputs options shared shared' ->
  fst (handler (createHandler options) req res shared')
  = fst (handler (createHandler options) req res shared).
Proof.
  intros Hsame. rewrite !handler_trace. cbn zeta.
  set (w0 := {| store := shared; trace := [] |}).
  set (w0' := {| store := shared'; trace := [] |}).
  destruct (gate_agree options req w0 w0' eq_refl Hsame) as (Hfst & Htr & Hgr & Hrv).
  pose proof (callback_stages options req res w0) as Hcb. unfold bind at 1 in Hcb.
  pose proof (callback_stages options req res w0') as Hcb'. unfold bind at 1 in Hcb'.
  destruct (gate_spec options req w0) as (_ & _ & Hl).
  pose proof (gate_guardFailed options req w0) as Hgf.
  destruct (gate options req w0) as [c w1], (gate options req w0') as [c' w1'].
  cbn in Hfst, Htr, Hgr, Hrv, Hl, Hgf. subst c'. rewrite Hcb, Hcb'.
  destruct c as [l|v|e]; cbn; [|by rewrite Htr..].
  destruct (tail_agree options req res l w1 w1' Hl) as [-> ->]; try done.
  - intros ->. auto.
  - intros ->. auto.
  - by apply Hrv.
Qed.

(** Route [routeAll] declares the three schemas: it answers a request on
    a blank context as it does after a request that it refused. *)
Lemma run_reads_unconfigured_slots_only_witness :
  fst (handler (createHandler Scenario.routeAll) Scenario.fullRequest Express.res_object
         (snd (handler (createHandler Scenario.routeAll) Scenario.badParamsRequest
                 Express.res_object Scenario.blank)))
  = fst (handler (createHandler Scenario.routeAll) Scenario.fullRequest Express.res_object
           Scenario.blank).
Proof.
  apply (run_reads_unconfigured_slots_only Scenario.routeAll Scenario.fullRequest
           Express.res_object Scenario.blank
           (snd (handler (createHandler Scenario.routeAll) Scenario.badParamsRequest
                   Express.res_object Scenario.blank))).
  repeat split.
Defined.
